(** * verify_player.py: the player smoke test, as a trace-producing program

    The script drives a headless browser through the Playwright library.
    Everything it does is a call into the outside world (the browser, the
    terminal, the clock), so the embedding is a small state-and-exception
    monad: the state is the history of calls made so far together with what
    each one answered, and the outside world is an arbitrary function from
    that history and the next call to an answer. *)

From Stdlib Require Import List String Ascii ZArith Lia Bool Arith DecimalString.
Import ListNotations.
Open Scope string_scope.
Open Scope list_scope.
Open Scope Z_scope.

(** ** Python values and exceptions *)

Module Py.

(** The exception classes that can reach the script: the two builtin roots,
    the interpreter's KeyboardInterrupt, and Playwright's Error and
    TimeoutError. *)
Inductive exn_class : Type :=
| BaseException
| Exception
| KeyboardInterrupt
| Error
| TimeoutError.

(** The direct base class of each class. *)
Definition base (c : exn_class) : option exn_class :=
  match c with
  | BaseException => None
  | Exception => Some BaseException
  | KeyboardInterrupt => Some BaseException
  | Error => Some Exception
  | TimeoutError => Some Error
  end.

Definition class_eqb (c d : exn_class) : bool :=
  match c, d with
  | BaseException, BaseException
  | Exception, Exception
  | KeyboardInterrupt, KeyboardInterrupt
  | Error, Error
  | TimeoutError, TimeoutError => true
  | _, _ => false
  end.

(** [issubclass c d], by climbing the chain of base classes. *)
Fixpoint issubclass_fuel (fuel : nat) (c d : exn_class) : bool :=
  if class_eqb c d then true
  else match fuel with
       | O => false
       | S fuel' =>
           match base c with
           | None => false
           | Some b => issubclass_fuel fuel' b d
           end
       end.

Definition issubclass : exn_class -> exn_class -> bool := issubclass_fuel 4.

Record exn : Type := mk_exn { exn_cls : exn_class; exn_msg : string }.

Definition isinstance (e : exn) (c : exn_class) : bool := issubclass (exn_cls e) c.

(** What a call hands back: None, a bool, or an opaque object (the browser,
    context, page and locator handles, of which the script has one each). *)
Inductive value : Type :=
| VNone
| VBool (b : bool)
| VObject.

Definition truthy (v : value) : bool :=
  match v with
  | VNone => false
  | VBool b => b
  | VObject => true
  end.

(** [str(i)] for a loop counter. *)
Definition str (i : nat) : string := NilZero.string_of_uint (Nat.to_uint i).

Definition range (n : nat) : list nat := seq 0 n.

End Py.
Import Py.

(** ** Calls, events and the world *)

(** Every call the file makes, with the arguments it passes. *)
Inductive call : Type :=
| sync_playwright_enter
| sync_playwright_exit
| chromium_launch (headless : bool)
| new_context (width height : Z)
| new_page
| print (s : string)
| goto (url : string) (timeout : Z)
| sleep (seconds : Z)
| fill (selector value : string)
| click (selector : string)
| wait_for_selector (selector : string) (timeout : Z)
| mouse_move (x y : Z)
| locator (selector : string)
| is_visible
| screenshot (path : string)
| browser_close.

Inductive result : Type :=
| Returned (v : value)
| Raised (e : exn).

(** An event is a call with its result, or the script's own [raise]. *)
Inductive event : Type :=
| Called (c : call) (r : result)
| Raising (e : exn).

Definition trace : Type := list event.

(** The outside world answers each call, of the library or of a builtin,
    knowing all that happened before. *)
Definition world : Type := trace -> call -> result.

(** ** The monad of the script *)

Definition M (A : Type) : Type := world -> trace -> trace * (A + exn).

Definition ret {A : Type} (a : A) : M A := fun _ h => (h, inl a).

Definition bind {A B : Type} (m : M A) (f : A -> M B) : M B :=
  fun w h =>
    match m w h with
    | (h', inl a) => f a w h'
    | (h', inr e) => (h', inr e)
    end.

Notation "x <- m ;; k" := (bind m (fun x => k))
  (at level 61, m at next level, right associativity).
Notation "m ;; k" := (bind m (fun _ => k))
  (at level 61, right associativity).

(** A call into the Playwright library: the world decides. *)
Definition invoke (c : call) : M value :=
  fun w h =>
    let r := w h c in
    (h ++ [Called c r],
     match r with
     | Returned v => inl v
     | Raised e => inr e
     end).

(** [print] and [time.sleep]: the world says whether the call raises (a
    broken pipe, an interrupt); when it does not, the call returns None. *)
Definition builtin (c : call) : M value :=
  fun w h =>
    match w h c with
    | Returned _ => (h ++ [Called c (Returned VNone)], inl VNone)
    | Raised e => (h ++ [Called c (Raised e)], inr e)
    end.

Definition raise {A : Type} (e : exn) : M A :=
  fun _ h => (h ++ [Raising e], inr e).

(** [try: m except cls as e: handler e] *)
Definition try_except {A : Type} (m : M A) (cls : exn_class) (handler : exn -> M A) : M A :=
  fun w h =>
    match m w h with
    | (h', inl a) => (h', inl a)
    | (h', inr e) => if isinstance e cls then handler e w h' else (h', inr e)
    end.

Inductive loop_exit : Type := Break | Continue.

(** [for x in xs: body x  else: orelse]: the else suite runs when the
    iteration is exhausted, not after a break. *)
Fixpoint for_else {A : Type} (xs : list A) (body : A -> M loop_exit) (orelse : M unit) : M unit :=
  match xs with
  | [] => orelse
  | x :: xs' =>
      c <- body x ;;
      match c with
      | Break => ret tt
      | Continue => for_else xs' body orelse
      end
  end.

(** [with manager as x: body]: __exit__ runs on every way out of the body,
    and a true answer from it swallows the body's exception. *)
Definition with_ (enter exit : call) (body : M unit) : M unit :=
  invoke enter ;;
  fun w h =>
    match body w h with
    | (h', inl a) => (invoke exit ;; ret a) w h'
    | (h', inr e) =>
        match invoke exit w h' with
        | (h'', inl v) => if truthy v then (h'', inl tt) else (h'', inr e)
        | (h'', inr e') => (h'', inr e')
        end
    end.

(** ** The script *)

Definition dq : string := String (ascii_of_nat 34) EmptyString.

Definition home_url : string := "http://localhost:3000".
Definition test_video_url : string := "https://media.w3.org/2010/05/sintel/trailer.mp4".
Definition url_input : string := ("input[type=" ++ dq ++ "url" ++ dq ++ "]")%string.
Definition start_button : string :=
  ("button:has-text(" ++ dq ++ "Start Streaming" ++ dq ++ ")")%string.
Definition controls_selector : string :=
  ("div[aria-label=" ++ dq ++ "Video controls" ++ dq ++ "]")%string.
Definition screenshot_path : string := "verification_controls.png".

Definition waiting_message (i : nat) : string :=
  ("Waiting for server... (" ++ str i ++ ")")%string.

Definition server_failed : exn := mk_exn Exception "Server failed to start".

(** Lines 12-17: one pass through the body of the retry loop. *)
Definition attempt (i : nat) : M loop_exit :=
  try_except
    (invoke (goto home_url 5000) ;;
     ret Break)
    Exception
    (fun e =>
       builtin (print (waiting_message i)) ;;
       builtin (sleep 2) ;;
       ret Continue).

(** Lines 11-19: the retry loop with its else suite. *)
Definition wait_for_server : M unit :=
  for_else (range 30) attempt (raise server_failed).

(** Lines 4-58. *)
Definition run : M unit :=
  invoke (chromium_launch true) ;;
  invoke (new_context 1280 720) ;;
  invoke new_page ;;
  builtin (print "Navigating to home page...") ;;
  wait_for_server ;;
  builtin (print "Filling URL...") ;;
  invoke (fill url_input test_video_url) ;;
  builtin (print "Starting stream...") ;;
  invoke (click start_button) ;;
  builtin (print "Waiting for video...") ;;
  invoke (wait_for_selector "video" 10000) ;;
  builtin (sleep 2) ;;
  builtin (print "Hovering to show controls...") ;;
  invoke (mouse_move 640 360) ;;
  invoke (mouse_move 650 370) ;;
  builtin (sleep 1) ;;
  invoke (locator controls_selector) ;;
  visible <- invoke is_visible ;;
  (if truthy visible
   then builtin (print "Controls are visible!")
   else builtin (print "Controls NOT visible!")) ;;
  builtin (print "Taking screenshot...") ;;
  invoke (screenshot screenshot_path) ;;
  invoke browser_close ;;
  ret tt.

(** Lines 60-61. *)
Definition main : M unit :=
  with_ sync_playwright_enter sync_playwright_exit run.

(** A run from the empty history. *)
Definition run_trace (w : world) : trace := fst (run w []).
Definition run_outcome (w : world) : unit + exn := snd (run w []).

(** ** Reading a trace *)

(** The results of the navigation attempts, in order. *)
Fixpoint goto_results (t : trace) : list result :=
  match t with
  | [] => []
  | Called (goto _ _) r :: t' => r :: goto_results t'
  | _ :: t' => goto_results t'
  end.

Definition attempts (t : trace) : nat := List.length (goto_results t).

Definition is_goto (c : call) : bool :=
  match c with
  | goto _ _ => true
  | _ => false
  end.

(** How many times the trace slept for 2 seconds. *)
Fixpoint two_second_sleeps (t : trace) : nat :=
  match t with
  | [] => 0%nat
  | Called (sleep 2) (Returned _) :: t' => S (two_second_sleeps t')
  | _ :: t' => two_second_sleeps t'
  end.

(** The files the run wrote: the paths of the screenshot calls that returned. *)
Fixpoint artifacts (t : trace) : list string :=
  match t with
  | [] => []
  | Called (screenshot path) (Returned _) :: t' => path :: artifacts t'
  | _ :: t' => artifacts t'
  end.

(** The three steps between the retry loop and the settling sleep. *)
Definition interaction_step (c : call) : bool :=
  match c with
  | fill _ _ | click _ | wait_for_selector _ _ => true
  | _ => false
  end.

(** Whether the trace holds a call of browser.close(). *)
Definition closes (t : trace) : bool :=
  existsb (fun ev => match ev with
                     | Called browser_close _ => true
                     | _ => false
                     end) t.

(** The specification on teardown, as it words it: whenever the browser was launched, the
    run closes it, also on a path that ends in an exception. *)
Definition every_path_closes_browser : Prop :=
  forall w : world,
    (exists v, nth_error (run_trace w) 0%nat = Some (Called (chromium_launch true) (Returned v))) ->
    closes (run_trace w) = true.

(** The duration the script asks of a call, in milliseconds: the timeout it
    passes to a navigation or to a wait for a selector, the length of a
    sleep, and 0 where it passes none. It is what the script requests, not
    the time the call takes. *)
Definition requested_ms (c : call) : Z :=
  match c with
  | goto _ timeout => timeout
  | wait_for_selector _ timeout => timeout
  | sleep seconds => 1000 * seconds
  | _ => 0
  end.

Fixpoint requested (t : trace) : Z :=
  match t with
  | [] => 0
  | Called c _ :: t' => requested_ms c + requested t'
  | Raising _ :: t' => requested t'
  end.

(** Two calls of the same operation, whatever their arguments. *)
Definition same_operation (c d : call) : bool :=
  match c, d with
  | sync_playwright_enter, sync_playwright_enter
  | sync_playwright_exit, sync_playwright_exit
  | chromium_launch _, chromium_launch _
  | new_context _ _, new_context _ _
  | new_page, new_page
  | print _, print _
  | goto _ _, goto _ _
  | sleep _, sleep _
  | fill _ _, fill _ _
  | click _, click _
  | wait_for_selector _ _, wait_for_selector _ _
  | mouse_move _ _, mouse_move _ _
  | locator _, locator _
  | is_visible, is_visible
  | screenshot _, screenshot _
  | browser_close, browser_close => true
  | _, _ => false
  end.

(** The calls of one operation, in the order the run made them. *)
Fixpoint calls_to (op : call) (t : trace) : list call :=
  match t with
  | [] => []
  | Called c _ :: t' => if same_operation op c then c :: calls_to op t' else calls_to op t'
  | Raising _ :: t' => calls_to op t'
  end.

(** The builtins, as opposed to the operations of the browser library. *)
Definition is_builtin (c : call) : bool :=
  match c with
  | print _ | sleep _ => true
  | _ => false
  end.

(** Every call the text of [run] spells out, its arguments being literals;
    only the progress message of the loop is missing, which carries the loop
    counter. *)
Definition literal_calls : list call :=
  [ chromium_launch true;
    new_context 1280 720;
    new_page;
    print "Navigating to home page...";
    goto "http://localhost:3000" 5000;
    sleep 2;
    print "Filling URL...";
    fill url_input "https://media.w3.org/2010/05/sintel/trailer.mp4";
    print "Starting stream...";
    click start_button;
    print "Waiting for video...";
    wait_for_selector "video" 10000;
    print "Hovering to show controls...";
    mouse_move 640 360;
    mouse_move 650 370;
    sleep 1;
    locator controls_selector;
    is_visible;
    print "Controls are visible!";
    print "Controls NOT visible!";
    print "Taking screenshot...";
    screenshot "verification_controls.png";
    browser_close ].

(** The browser operations of a run in which everything succeeds at the last
    moment: the longest sequence a run can make. *)
Definition reference_calls : list call :=
  [ chromium_launch true; new_context 1280 720; new_page ]
    ++ repeat (goto home_url 5000) 30
    ++ [ fill url_input test_video_url;
         click start_button;
         wait_for_selector "video" 10000;
         mouse_move 640 360;
         mouse_move 650 370;
         locator controls_selector;
         is_visible;
         screenshot screenshot_path;
         browser_close ].

Definition form_interaction (c : call) : bool :=
  match c with
  | fill _ _ | click _ => true
  | _ => false
  end.

(** An attempt fails when the handler of line 15 takes its exception. *)
Definition failed (r : result) : bool :=
  match r with
  | Returned _ => false
  | Raised e => isinstance e Exception
  end.

(** The three events of one failed pass through the loop body. *)
Definition failed_cycle (i : nat) (e : exn) : trace :=
  [ Called (goto home_url 5000) (Raised e);
    Called (print (waiting_message i)) (Returned VNone);
    Called (sleep 2) (Returned VNone) ].

Fixpoint cycles (i : nat) (es : list exn) : trace :=
  match es with
  | [] => []
  | e :: es' => failed_cycle i e ++ cycles (S i) es'
  end.

(** Straight-line code: a plan of calls, each made by the library or by a
    builtin. *)
Inductive step : Type :=
| Lib (c : call)
| Std (c : call).

(** [plays p t o]: running the plan [p] leaves the events [t] and ends in [o];
    it stops at the first call that raises. *)
Inductive plays : list step -> trace -> unit + exn -> Prop :=
| plays_done : plays [] [] (inl tt)
| plays_std c p t o :
    plays p t o ->
    plays (Std c :: p) (Called c (Returned VNone) :: t) o
| plays_lib c v p t o :
    plays p t o ->
    plays (Lib c :: p) (Called c (Returned v) :: t) o
| plays_raise c e p :
    plays (Lib c :: p) [Called c (Raised e)] (inr e)
| plays_std_raise c e p :
    plays (Std c :: p) [Called c (Raised e)] (inr e).

Definition setup_plan : list step :=
  [ Lib (chromium_launch true);
    Lib (new_context 1280 720);
    Lib new_page;
    Std (print "Navigating to home page...") ].

Definition before_check : list step :=
  [ Std (print "Filling URL...");
    Lib (fill url_input test_video_url);
    Std (print "Starting stream...");
    Lib (click start_button);
    Std (print "Waiting for video...");
    Lib (wait_for_selector "video" 10000);
    Std (sleep 2);
    Std (print "Hovering to show controls...");
    Lib (mouse_move 640 360);
    Lib (mouse_move 650 370);
    Std (sleep 1);
    Lib (locator controls_selector) ].

Definition diagnostic (visible : value) : string :=
  if truthy visible then "Controls are visible!" else "Controls NOT visible!".

Definition after_check (visible : value) : list step :=
  [ Std (print (diagnostic visible));
    Std (print "Taking screenshot...");
    Lib (screenshot screenshot_path);
    Lib browser_close ].

(** Running a plan, then [k]. *)
Fixpoint perform (p : list step) (k : M unit) : M unit :=
  match p with
  | [] => k
  | Lib c :: p' => invoke c ;; perform p' k
  | Std c :: p' => builtin c ;; perform p' k
  end.

(** The ways a run can go. *)
Inductive run_shape : trace -> unit + exn -> Prop :=
| setup_raised s e :
    plays setup_plan s (inr e) ->
    run_shape s (inr e)
| loop_interrupted s es e :
    plays setup_plan s (inl tt) ->
    forallb (fun x => isinstance x Exception) es = true ->
    (List.length es < 30)%nat ->
    isinstance e Exception = false ->
    run_shape (s ++ cycles 0 es ++ [Called (goto home_url 5000) (Raised e)]) (inr e)
| handler_print_raised s es e e' :
    plays setup_plan s (inl tt) ->
    forallb (fun x => isinstance x Exception) es = true ->
    (List.length es < 30)%nat ->
    isinstance e Exception = true ->
    run_shape (s ++ cycles 0 es
                 ++ [ Called (goto home_url 5000) (Raised e);
                      Called (print (waiting_message (List.length es))) (Raised e') ])
              (inr e')
| handler_sleep_raised s es e e' :
    plays setup_plan s (inl tt) ->
    forallb (fun x => isinstance x Exception) es = true ->
    (List.length es < 30)%nat ->
    isinstance e Exception = true ->
    run_shape (s ++ cycles 0 es
                 ++ [ Called (goto home_url 5000) (Raised e);
                      Called (print (waiting_message (List.length es))) (Returned VNone);
                      Called (sleep 2) (Raised e') ])
              (inr e')
| loop_exhausted s es :
    plays setup_plan s (inl tt) ->
    forallb (fun x => isinstance x Exception) es = true ->
    List.length es = 30%nat ->
    run_shape (s ++ cycles 0 es ++ [Raising server_failed]) (inr server_failed)
| interaction_raised s es v t e :
    plays setup_plan s (inl tt) ->
    forallb (fun x => isinstance x Exception) es = true ->
    (List.length es < 30)%nat ->
    plays before_check t (inr e) ->
    run_shape (s ++ cycles 0 es ++ Called (goto home_url 5000) (Returned v) :: t) (inr e)
| check_raised s es v t e :
    plays setup_plan s (inl tt) ->
    forallb (fun x => isinstance x Exception) es = true ->
    (List.length es < 30)%nat ->
    plays before_check t (inl tt) ->
    run_shape (s ++ cycles 0 es ++ Called (goto home_url 5000) (Returned v) :: t
                 ++ [Called is_visible (Raised e)]) (inr e)
| checked s es v t visible u o :
    plays setup_plan s (inl tt) ->
    forallb (fun x => isinstance x Exception) es = true ->
    (List.length es < 30)%nat ->
    plays before_check t (inl tt) ->
    plays (after_check visible) u o ->
    run_shape (s ++ cycles 0 es ++ Called (goto home_url 5000) (Returned v) :: t
                 ++ Called is_visible (Returned visible) :: u) o.

(** What the run wrote to the terminal, line by line: the prints that
    returned. *)
Fixpoint printed (t : trace) : list string :=
  match t with
  | [] => []
  | Called (print line) (Returned _) :: t' => line :: printed t'
  | _ :: t' => printed t'
  end.

(** The calls of the setup, and print. *)
Definition sets_up_or_prints (c : call) : bool :=
  match c with
  | chromium_launch _ | new_context _ _ | new_page | print _ => true
  | _ => false
  end.

(** Whether the trace holds a call picked by [p] that raised. *)
Definition raised_in (p : call -> bool) (t : trace) : bool :=
  existsb (fun ev => match ev with
                     | Called c (Raised _) => p c
                     | _ => false
                     end) t.

(** What a call is seen to answer: a builtin that returns, returns None. *)
Definition observed (w : world) (h : trace) (c : call) : result :=
  match w h c with
  | Returned v => Returned (if is_builtin c then VNone else v)
  | Raised e => Raised e
  end.

(** The messages after the retry loop, in the order of the text. *)
Definition closing_messages (shown : bool) : list string :=
  [ "Filling URL...";
    "Starting stream...";
    "Waiting for video...";
    "Hovering to show controls...";
    if shown then "Controls are visible!" else "Controls NOT visible!";
    "Taking screenshot..." ].

(** The history is made of the answers of [w]: every call in it carries
    what [w] is seen to answer to that call after the events before it. *)
Definition answers (w : world) (h : trace) : Prop :=
  forall n c r,
    nth_error h n = Some (Called c r) -> r = observed w (firstn n h) c.

(** A computation keeps the history made of the answers of the world. *)
Definition keeps {A : Type} (m : M A) : Prop :=
  forall w h, answers w h -> answers w (fst (m w h)).

(** The world as it looks after the events [h0]. *)
Definition shift (w : world) (h0 : trace) : world := fun h c => w (h0 ++ h) c.

(** A computation only appends to the history, and does after [h0] what it
    does from the start in the world shifted by [h0]. *)
Definition framed {A : Type} (m : M A) : Prop :=
  forall w h0 h,
    m w (h0 ++ h) = (h0 ++ fst (m (shift w h0) h), snd (m (shift w h0) h)).

(** The specification on the generic failure, as it words it: line 19 runs
    exactly when all thirty attempts fail. *)
Definition failure_iff_attempts_fail : Prop :=
  forall w : world,
    In (Raising server_failed) (run_trace w)
    <-> attempts (run_trace w) = 30%nat
        /\ forallb failed (goto_results (run_trace w)) = true.

(** The specification on the visibility check, as it words it: whatever the
    check answers, the run goes on to take the screenshot. *)
Definition check_always_reaches_screenshot : Prop :=
  forall (w : world) (n : nat) (visible : value),
    nth_error (run_trace w) n = Some (Called is_visible (Returned visible)) ->
    exists r,
      nth_error (run_trace w) (n + 3) = Some (Called (screenshot screenshot_path) r).

(** The specification on the handler, as it words it: every failure of the
    navigation that the handler takes is followed by a retry, or by the
    generic failure once the budget is spent. *)
Definition caught_failure_always_retried : Prop :=
  forall (w : world) (n : nat) (url : string) (tmo : Z) (e : exn),
    nth_error (run_trace w) n = Some (Called (goto url tmo) (Raised e)) ->
    isinstance e Exception = true ->
    (exists r, nth_error (run_trace w) (n + 3) = Some (Called (goto home_url 5000) r))
    \/ nth_error (run_trace w) (n + 3) = Some (Raising server_failed).

(** The specification on the last cycle, as it words it: when all thirty
    attempts fail, the run ends with a returned sleep of 2 seconds and then
    the generic failure. *)
Definition failed_attempts_end_in_failure : Prop :=
  forall w : world,
    attempts (run_trace w) = 30%nat ->
    forallb failed (goto_results (run_trace w)) = true ->
    exists pre,
      run_trace w = pre ++ [Called (sleep 2) (Returned VNone); Raising server_failed].

(** ** Sample worlds *)

Definition refused : exn := mk_exn Error "net::ERR_CONNECTION_REFUSED".
Definition navigation_timeout : exn := mk_exn TimeoutError "Timeout 5000ms exceeded.".

(** The server answers from the [n]-th attempt on; the controls show or not. *)
Definition server_up_after (n : nat) (shown : bool) : world :=
  fun h c =>
    match c with
    | goto _ _ => if (attempts h <? n)%nat then Raised refused else Returned VNone
    | is_visible => Returned (VBool shown)
    | print _ | sleep _ => Returned VNone
    | _ => Returned VObject
    end.

(** The server never answers. *)
Definition server_down : world :=
  fun h c =>
    match c with
    | goto _ _ => Raised navigation_timeout
    | _ => Returned VObject
    end.

(** The server never answers, and the exit of the with block answers None. *)
Definition server_down_script : world :=
  fun h c =>
    match c with
    | goto _ _ => Raised refused
    | sync_playwright_exit => Returned VNone
    | _ => Returned VObject
    end.

(** The server never answers, and the user interrupts the sleep that
    follows the thirtieth attempt. *)
Definition last_sleep_interrupted : world :=
  fun h c =>
    match c with
    | goto _ _ => Raised refused
    | sleep _ => if (attempts h =? 30)%nat
                 then Raised (mk_exn KeyboardInterrupt "")
                 else Returned VNone
    | _ => Returned VObject
    end.

(** The server does not answer at first, and the user interrupts the first
    sleep. *)
Definition first_sleep_interrupted : world :=
  fun h c =>
    match c with
    | goto _ _ => Raised refused
    | sleep _ => Raised (mk_exn KeyboardInterrupt "")
    | _ => Returned VObject
    end.

(** All goes well up to the visibility check; the user interrupts the print
    of the diagnostic. *)
Definition interrupted_after_check : world :=
  fun h c =>
    match c with
    | print _ => match calls_to is_visible h with
                 | [] => Returned VNone
                 | _ :: _ => Raised (mk_exn KeyboardInterrupt "")
                 end
    | is_visible => Returned (VBool true)
    | _ => Returned VObject
    end.

(** The user interrupts the first navigation. *)
Definition interrupted : world :=
  fun h c =>
    match c with
    | goto _ _ => Raised (mk_exn KeyboardInterrupt "")
    | _ => Returned VObject
    end.

(** Everything works until one given call, which raises. *)
Definition breaks_at (bad : call -> bool) (e : exn) : world :=
  fun h c => if bad c then Raised e else Returned VObject.

(** ** The shape of a run *)

Section Shape.

Local Open Scope nat_scope.

(** The run against a server that is up and a player that shows its
    controls, event by event. *)
Example run_server_up :
  run (server_up_after 0 true) []
  = ([ Called (chromium_launch true) (Returned VObject);
       Called (new_context 1280 720) (Returned VObject);
       Called new_page (Returned VObject);
       Called (print "Navigating to home page...") (Returned VNone);
       Called (goto "http://localhost:3000" 5000) (Returned VNone);
       Called (print "Filling URL...") (Returned VNone);
       Called (fill url_input "https://media.w3.org/2010/05/sintel/trailer.mp4")
              (Returned VObject);
       Called (print "Starting stream...") (Returned VNone);
       Called (click start_button) (Returned VObject);
       Called (print "Waiting for video...") (Returned VNone);
       Called (wait_for_selector "video" 10000) (Returned VObject);
       Called (sleep 2) (Returned VNone);
       Called (print "Hovering to show controls...") (Returned VNone);
       Called (mouse_move 640 360) (Returned VObject);
       Called (mouse_move 650 370) (Returned VObject);
       Called (sleep 1) (Returned VNone);
       Called (locator controls_selector) (Returned VObject);
       Called is_visible (Returned (VBool true));
       Called (print "Controls are visible!") (Returned VNone);
       Called (print "Taking screenshot...") (Returned VNone);
       Called (screenshot "verification_controls.png") (Returned VObject);
       Called browser_close (Returned VObject) ],
     inl tt).
Proof. vm_compute. reflexivity. Qed.

(** One refused connection, then the server is up: the loop goes round once. *)
Example run_server_late :
  firstn 9 (run_trace (server_up_after 1 false))
  = [ Called (chromium_launch true) (Returned VObject);
      Called (new_context 1280 720) (Returned VObject);
      Called new_page (Returned VObject);
      Called (print "Navigating to home page...") (Returned VNone);
      Called (goto "http://localhost:3000" 5000) (Raised refused);
      Called (print "Waiting for server... (0)") (Returned VNone);
      Called (sleep 2) (Returned VNone);
      Called (goto "http://localhost:3000" 5000) (Returned VNone);
      Called (print "Filling URL...") (Returned VNone) ].
Proof. vm_compute. reflexivity. Qed.

(** No server: ninety-five events, the last four being the thirtieth cycle
    and the raise. *)
Example run_server_down :
  List.length (run_trace server_down) = 95
  /\ skipn 91 (run_trace server_down)
     = [ Called (goto "http://localhost:3000" 5000) (Raised navigation_timeout);
         Called (print "Waiting for server... (29)") (Returned VNone);
         Called (sleep 2) (Returned VNone);
         Raising server_failed ]
  /\ run_outcome server_down = inr server_failed.
Proof. repeat split; vm_compute; reflexivity. Qed.

(** Every class but the root and KeyboardInterrupt is below Exception:
    Playwright's Error and TimeoutError are. *)
Lemma below_Exception (cls : exn_class) (msg : string) :
  isinstance (mk_exn cls msg) Exception
  = match cls with
    | BaseException | KeyboardInterrupt => false
    | Exception | Error | TimeoutError => true
    end.
Proof. destruct cls; reflexivity. Qed.

Lemma builtin_unfold (c : call) (w : world) (h : trace) :
  builtin c w h = match w h c with
                  | Returned _ => (h ++ [Called c (Returned VNone)], inl VNone)
                  | Raised e => (h ++ [Called c (Raised e)], inr e)
                  end.
Proof. reflexivity. Qed.

Lemma attempt_unfold (i : nat) (w : world) (h : trace) :
  attempt i w h =
  match w h (goto home_url 5000) with
  | Returned v => (h ++ [Called (goto home_url 5000) (Returned v)], inl Break)
  | Raised e =>
      if isinstance e Exception
      then
        match w (h ++ [Called (goto home_url 5000) (Raised e)]) (print (waiting_message i)) with
        | Raised e' =>
            (h ++ [ Called (goto home_url 5000) (Raised e);
                    Called (print (waiting_message i)) (Raised e') ], inr e')
        | Returned _ =>
            match w (h ++ [ Called (goto home_url 5000) (Raised e);
                            Called (print (waiting_message i)) (Returned VNone) ])
                    (sleep 2) with
            | Raised e' =>
                (h ++ [ Called (goto home_url 5000) (Raised e);
                        Called (print (waiting_message i)) (Returned VNone);
                        Called (sleep 2) (Raised e') ], inr e')
            | Returned _ => (h ++ failed_cycle i e, inl Continue)
            end
        end
      else (h ++ [Called (goto home_url 5000) (Raised e)], inr e)
  end.
Proof.
  unfold attempt, try_except, bind, invoke, builtin, ret, failed_cycle.
  destruct (w h (goto home_url 5000)) as [v|e]; [reflexivity|].
  destruct (isinstance e Exception); [|reflexivity].
  destruct (w (h ++ [Called (goto home_url 5000) (Raised e)]) (print (waiting_message i)))
    as [v1|e1]; [|rewrite <- app_assoc; reflexivity].
  rewrite <- app_assoc. cbn [app].
  destruct (w _ (sleep 2)) as [v2|e2]; rewrite <- app_assoc; reflexivity.
Qed.

Lemma for_else_cons {A : Type} (x : A) (xs : list A) (body : A -> M loop_exit)
      (orelse : M unit) (w : world) (h : trace) :
  for_else (x :: xs) body orelse w h =
  match body x w h with
  | (h', inl Break) => (h', inl tt)
  | (h', inl Continue) => for_else xs body orelse w h'
  | (h', inr e) => (h', inr e)
  end.
Proof.
  cbn [for_else]. unfold bind. destruct (body x w h) as [h' [[|]|e]]; reflexivity.
Qed.

Lemma attempt_loop_shape (n : nat) :
  forall (i : nat) (w : world) (h : trace),
  exists es,
    forallb (fun x => isinstance x Exception) es = true /\
    ((List.length es = n /\
      for_else (seq i n) attempt (raise server_failed) w h
      = (h ++ cycles i es ++ [Raising server_failed], inr server_failed))
     \/ (List.length es < n /\ exists e,
          isinstance e Exception = false /\
          for_else (seq i n) attempt (raise server_failed) w h
          = (h ++ cycles i es ++ [Called (goto home_url 5000) (Raised e)], inr e))
     \/ (List.length es < n /\ exists v,
          for_else (seq i n) attempt (raise server_failed) w h
          = (h ++ cycles i es ++ [Called (goto home_url 5000) (Returned v)], inl tt))
     \/ (List.length es < n /\ exists e e',
          isinstance e Exception = true /\
          for_else (seq i n) attempt (raise server_failed) w h
          = (h ++ cycles i es
               ++ [ Called (goto home_url 5000) (Raised e);
                    Called (print (waiting_message (i + List.length es))) (Raised e') ],
             inr e'))
     \/ (List.length es < n /\ exists e e',
          isinstance e Exception = true /\
          for_else (seq i n) attempt (raise server_failed) w h
          = (h ++ cycles i es
               ++ [ Called (goto home_url 5000) (Raised e);
                    Called (print (waiting_message (i + List.length es))) (Returned VNone);
                    Called (sleep 2) (Raised e') ],
             inr e'))).
Proof.
  induction n as [|n IH]; intros i w h.
  - exists []. split; [reflexivity|]. left. split; reflexivity.
  - cbn [seq]. rewrite for_else_cons, attempt_unfold.
    destruct (w h (goto home_url 5000)) as [v|e] eqn:Hw.
    + exists []. split; [reflexivity|]. right. right. left. split; [cbn; lia|].
      exists v. reflexivity.
    + destruct (isinstance e Exception) eqn:He.
      * destruct (w (h ++ [Called (goto home_url 5000) (Raised e)])
                    (print (waiting_message i))) as [v1|e1].
        2:{ exists []. split; [reflexivity|]. do 3 right. left. split; [cbn; lia|].
            exists e, e1. split; [exact He|]. cbn [cycles List.length app].
            rewrite Nat.add_0_r. reflexivity. }
        destruct (w _ (sleep 2)) as [v2|e2].
        2:{ exists []. split; [reflexivity|]. do 4 right. split; [cbn; lia|].
            exists e, e2. split; [exact He|]. cbn [cycles List.length app].
            rewrite Nat.add_0_r. reflexivity. }
        destruct (IH (S i) w (h ++ failed_cycle i e)) as (es & Hes & Hcase).
        exists (e :: es). split; [cbn [forallb]; rewrite He, Hes; reflexivity|].
        cbn [cycles List.length].
        replace (i + S (List.length es)) with (S i + List.length es) by lia.
        destruct Hcase as [(Hl & Hr) | [(Hl & e' & He' & Hr) | [(Hl & v & Hr)
                          | [(Hl & e' & e'' & He' & Hr) | (Hl & e' & e'' & He' & Hr)]]]].
        -- left. split; [lia|]. rewrite Hr. repeat rewrite <- app_assoc. reflexivity.
        -- right. left. split; [lia|]. exists e'. split; [exact He'|].
           rewrite Hr. repeat rewrite <- app_assoc. reflexivity.
        -- right. right. left. split; [lia|]. exists v.
           rewrite Hr. repeat rewrite <- app_assoc. reflexivity.
        -- do 3 right. left. split; [lia|]. exists e', e''. split; [exact He'|].
           rewrite Hr. repeat rewrite <- app_assoc. reflexivity.
        -- do 4 right. split; [lia|]. exists e', e''. split; [exact He'|].
           rewrite Hr. repeat rewrite <- app_assoc. reflexivity.
      * exists []. split; [reflexivity|]. right. left. split; [cbn; lia|].
        exists e. split; [exact He|reflexivity].
Qed.

Lemma bind_unfold {A B : Type} (m : M A) (f : A -> M B) (w : world) (h : trace) :
  bind m f w h = match m w h with
                 | (h', inl a) => f a w h'
                 | (h', inr e) => (h', inr e)
                 end.
Proof. reflexivity. Qed.

Lemma invoke_unfold (c : call) (w : world) (h : trace) :
  invoke c w h = match w h c with
                 | Returned v => (h ++ [Called c (Returned v)], inl v)
                 | Raised e => (h ++ [Called c (Raised e)], inr e)
                 end.
Proof. unfold invoke. destruct (w h c); reflexivity. Qed.

Lemma bind_ext {A B : Type} (m : M A) (f g : A -> M B) (w : world) (h : trace) :
  (forall a h', f a w h' = g a w h') -> bind m f w h = bind m g w h.
Proof.
  intros Hfg. unfold bind. destruct (m w h) as [h' [a|e]]; [apply Hfg|reflexivity].
Qed.

Lemma perform_plays (p : list step) (k : M unit) (w : world) :
  forall h, exists t o,
    plays p t o /\
    perform p k w h = match o with
                      | inl _ => k w (h ++ t)
                      | inr e => (h ++ t, inr e)
                      end.
Proof.
  induction p as [|[c|c] p IH]; intros h.
  - exists [], (inl tt). split; [constructor|]. rewrite app_nil_r. reflexivity.
  - cbn [perform]. unfold bind, invoke.
    destruct (w h c) as [v|e].
    + destruct (IH (h ++ [Called c (Returned v)])) as (t & o & Hp & Hr).
      exists (Called c (Returned v) :: t), o. split; [constructor; exact Hp|].
      rewrite Hr. rewrite <- !app_assoc. reflexivity.
    + exists [Called c (Raised e)], (inr e). split; [constructor|reflexivity].
  - cbn [perform]. unfold bind, builtin.
    destruct (w h c) as [v|e].
    + destruct (IH (h ++ [Called c (Returned VNone)])) as (t & o & Hp & Hr).
      exists (Called c (Returned VNone) :: t), o. split; [constructor; exact Hp|].
      rewrite Hr. rewrite <- !app_assoc. reflexivity.
    + exists [Called c (Raised e)], (inr e). split; [constructor|reflexivity].
Qed.

(** The script as three plans around the loop and the check. *)
Lemma run_as_plans (w : world) (h : trace) :
  run w h =
  perform setup_plan
    (wait_for_server ;;
     perform before_check
       (visible <- invoke is_visible ;;
        perform (after_check visible) (ret tt))) w h.
Proof.
  unfold run, setup_plan, before_check. cbn [perform].
  repeat (apply bind_ext; intros ? ?).
  unfold after_check, diagnostic. cbn [perform].
  match goal with |- context [truthy ?v] => destruct (truthy v) end; reflexivity.
Qed.

Theorem run_has_shape (w : world) : run_shape (run_trace w) (run_outcome w).
Proof.
  unfold run_trace, run_outcome. rewrite run_as_plans.
  match goal with |- context [perform setup_plan ?k w []] =>
    destruct (perform_plays setup_plan k w []) as (s & o & Hs & Hr) end.
  rewrite Hr. clear Hr. cbn [app].
  destruct o as [[]|e]; [|cbn [fst snd]; apply setup_raised; exact Hs].
  rewrite bind_unfold. unfold wait_for_server, range.
  destruct (attempt_loop_shape 30 0 w s)
    as (es & Hes & [(Hl & Hr) | [(Hl & e & He & Hr) | [(Hl & v & Hr)
                   | [(Hl & e & e' & He & Hr) | (Hl & e & e' & He & Hr)]]]]);
    rewrite Hr; clear Hr.
  - cbn [fst snd]. apply loop_exhausted; assumption.
  - cbn [fst snd]. apply loop_interrupted; assumption.
  - match goal with |- context [perform before_check ?k w ?h] =>
      destruct (perform_plays before_check k w h) as (t & o & Ht & Hr) end.
    rewrite Hr. clear Hr.
    destruct o as [[]|e].
    + rewrite bind_unfold, invoke_unfold.
      match goal with |- context [w ?h is_visible] => destruct (w h is_visible) as [visible|e] end.
      * match goal with |- context [perform (after_check visible) ?k w ?h] =>
          destruct (perform_plays (after_check visible) k w h) as (u & o & Hu & Hr) end.
        rewrite Hr. clear Hr.
        assert (Ho : (match o with
                      | inl _ => ret tt w ((((s ++ cycles 0 es ++ [Called (goto home_url 5000) (Returned v)]) ++ t) ++ [Called is_visible (Returned visible)]) ++ u)
                      | inr e => ((((s ++ cycles 0 es ++ [Called (goto home_url 5000) (Returned v)]) ++ t) ++ [Called is_visible (Returned visible)]) ++ u, inr e)
                      end)
                     = (s ++ cycles 0 es ++ Called (goto home_url 5000) (Returned v) :: t
                          ++ Called is_visible (Returned visible) :: u, o)).
        { repeat rewrite <- app_assoc. cbn [app]. destruct o as [[]|e]; reflexivity. }
        rewrite Ho. cbn [fst snd]. apply checked; assumption.
      * cbn [fst snd]. repeat rewrite <- app_assoc. cbn [app].
        apply check_raised; assumption.
    + cbn [fst snd]. repeat rewrite <- app_assoc. cbn [app].
      apply interaction_raised; assumption.
  - cbn [fst snd]. apply handler_print_raised; assumption.
  - cbn [fst snd]. apply handler_sleep_raised; assumption.
Qed.

(** *** Looking up positions in a run *)

Lemma cycles_lookup (es : list exn) :
  forall i j e t,
    nth_error es j = Some e ->
    nth_error (cycles i es ++ t) (3 * j) = Some (Called (goto home_url 5000) (Raised e)) /\
    nth_error (cycles i es ++ t) (3 * j + 1)
    = Some (Called (print (waiting_message (i + j))) (Returned VNone)) /\
    nth_error (cycles i es ++ t) (3 * j + 2) = Some (Called (sleep 2) (Returned VNone)).
Proof.
  induction es as [|e0 es IH]; intros i j e t Hj.
  - destruct j; discriminate Hj.
  - destruct j as [|j].
    + injection Hj as ->. rewrite Nat.add_0_r. repeat split.
    + cbn [nth_error] in Hj. destruct (IH (S i) j e t Hj) as (H0 & H1 & H2).
      replace (3 * S j) with (S (S (S (3 * j)))) by lia.
      replace (i + S j) with (S i + j) by lia.
      cbn [cycles failed_cycle app Nat.add nth_error]. auto.
Qed.

Lemma cycles_skip (es : list exn) :
  forall i t k, nth_error (cycles i es ++ t) (3 * List.length es + k) = nth_error t k.
Proof.
  induction es as [|e0 es IH]; intros i t k.
  - reflexivity.
  - replace (3 * List.length (e0 :: es) + k) with (S (S (S (3 * List.length es + k))))
      by (cbn [List.length]; lia).
    cbn [cycles failed_cycle app nth_error]. apply IH.
Qed.

Lemma cycles_locate (es : list exn) :
  forall i t m ev,
    nth_error (cycles i es ++ t) m = Some ev ->
    (exists j e, nth_error es j = Some e /\
                 ((m = 3 * j /\ ev = Called (goto home_url 5000) (Raised e)) \/
                  (m = 3 * j + 1 /\ ev = Called (print (waiting_message (i + j))) (Returned VNone)) \/
                  (m = 3 * j + 2 /\ ev = Called (sleep 2) (Returned VNone))))
    \/ (exists k, m = 3 * List.length es + k /\ nth_error t k = Some ev).
Proof.
  induction es as [|e0 es IH]; intros i t m ev Hm.
  - right. exists m. split; [reflexivity|exact Hm].
  - destruct m as [|[|[|m]]]; cbn [cycles failed_cycle app nth_error] in Hm.
    + left. exists 0, e0. split; [reflexivity|]. left. split; [reflexivity|congruence].
    + left. exists 0, e0. split; [reflexivity|]. right. left.
      rewrite Nat.add_0_r. split; [reflexivity|congruence].
    + left. exists 0, e0. split; [reflexivity|]. right. right. split; [reflexivity|congruence].
    + destruct (IH (S i) t m ev Hm) as [(j & e & Hj & Hc) | (k & -> & Hk)].
      * left. exists (S j), e. split; [exact Hj|].
        replace (i + S j) with (S i + j) by lia.
        destruct Hc as [(-> & ->) | [(-> & ->) | (-> & ->)]];
          [left | right; left | right; right]; split; try reflexivity; lia.
      * right. exists k. split; [cbn [List.length]; lia|exact Hk].
Qed.

Lemma goto_results_app (t u : trace) :
  goto_results (t ++ u) = goto_results t ++ goto_results u.
Proof.
  induction t as [|[c r|e] t IH]; cbn [app goto_results]; [reflexivity| |exact IH].
  destruct c; cbn [app]; rewrite ?IH; reflexivity.
Qed.

Lemma goto_results_cycles (es : list exn) :
  forall i, goto_results (cycles i es) = map Raised es.
Proof.
  induction es as [|e es IH]; intros i; [reflexivity|].
  cbn [cycles failed_cycle app goto_results map]. rewrite IH. reflexivity.
Qed.

Lemma shape_locate (s : trace) (i : nat) (es : list exn) (t : trace) (n : nat) (ev : event) :
  nth_error (s ++ cycles i es ++ t) n = Some ev ->
  (n < List.length s /\ nth_error s n = Some ev)
  \/ (exists j e, nth_error es j = Some e /\
                  ((n = List.length s + 3 * j /\ ev = Called (goto home_url 5000) (Raised e)) \/
                   (n = List.length s + 3 * j + 1 /\
                    ev = Called (print (waiting_message (i + j))) (Returned VNone)) \/
                   (n = List.length s + 3 * j + 2 /\ ev = Called (sleep 2) (Returned VNone))))
  \/ (exists k, n = List.length s + 3 * List.length es + k /\ nth_error t k = Some ev).
Proof.
  intros Hn. destruct (Nat.lt_ge_cases n (List.length s)) as [Hlt|Hge].
  - left. split; [exact Hlt|]. rewrite nth_error_app1 in Hn by exact Hlt. exact Hn.
  - right. rewrite nth_error_app2 in Hn by exact Hge.
    destruct (cycles_locate es i t _ ev Hn) as [(j & e & Hj & Hc) | (k & Hk & Hev)].
    + left. exists j, e. split; [exact Hj|].
      destruct Hc as [(Hm & ->) | [(Hm & ->) | (Hm & ->)]];
        [left | right; left | right; right]; split; try reflexivity; lia.
    + right. exists k. split; [lia|exact Hev].
Qed.

Lemma shape_in_cycle (s : trace) (i : nat) (es : list exn) (t : trace) (j : nat) (e : exn) :
  nth_error es j = Some e ->
  nth_error (s ++ cycles i es ++ t) (List.length s + 3 * j)
  = Some (Called (goto home_url 5000) (Raised e)) /\
  nth_error (s ++ cycles i es ++ t) (List.length s + 3 * j + 1)
  = Some (Called (print (waiting_message (i + j))) (Returned VNone)) /\
  nth_error (s ++ cycles i es ++ t) (List.length s + 3 * j + 2)
  = Some (Called (sleep 2) (Returned VNone)).
Proof.
  intros Hj. destruct (cycles_lookup es i j e t Hj) as (H0 & H1 & H2).
  repeat split; rewrite nth_error_app2 by lia.
  - replace (List.length s + 3 * j - List.length s) with (3 * j) by lia. exact H0.
  - replace (List.length s + 3 * j + 1 - List.length s) with (3 * j + 1) by lia. exact H1.
  - replace (List.length s + 3 * j + 2 - List.length s) with (3 * j + 2) by lia. exact H2.
Qed.

Lemma shape_in_tail (s : trace) (i : nat) (es : list exn) (t : trace) (n k : nat) :
  n = List.length s + 3 * List.length es + k ->
  nth_error (s ++ cycles i es ++ t) n = nth_error t k.
Proof.
  intros ->. rewrite nth_error_app2 by lia.
  replace (List.length s + 3 * List.length es + k - List.length s)
    with (3 * List.length es + k) by lia.
  apply cycles_skip.
Qed.

Lemma in_cycles (es : list exn) :
  forall i ev, In ev (cycles i es) -> exists c r, ev = Called c r.
Proof.
  induction es as [|e es IH]; intros i ev Hin; [destruct Hin|].
  cbn [cycles failed_cycle app In] in Hin.
  destruct Hin as [<-|[<-|[<-|Hin]]]; eauto.
Qed.

Lemma in_cycles_call (es : list exn) :
  forall i c r, In (Called c r) (cycles i es) -> form_interaction c = false.
Proof.
  induction es as [|e es IH]; intros i c r Hin; [destruct Hin|].
  cbn [cycles failed_cycle app In] in Hin.
  destruct Hin as [Hin|[Hin|[Hin|Hin]]]; try (injection Hin as <- <-; reflexivity).
  exact (IH _ _ _ Hin).
Qed.

Lemma nth_error_nil_some {A : Type} (n : nat) (x : A) : nth_error [] n = Some x -> False.
Proof. destruct n; discriminate. Qed.

End Shape.

Lemma plays_nil_inv (t : trace) (o : unit + exn) :
  plays [] t o -> t = [] /\ o = inl tt.
Proof. intros H. inversion H. split; reflexivity. Qed.

Lemma plays_std_inv (c : call) (p : list step) (t : trace) (o : unit + exn) :
  plays (Std c :: p) t o ->
  (exists t', t = Called c (Returned VNone) :: t' /\ plays p t' o)
  \/ (exists e, t = [Called c (Raised e)] /\ o = inr e).
Proof. intros H. inversion H; subst; eauto. Qed.

Lemma plays_lib_inv (c : call) (p : list step) (t : trace) (o : unit + exn) :
  plays (Lib c :: p) t o ->
  (exists v t', t = Called c (Returned v) :: t' /\ plays p t' o)
  \/ (exists e, t = [Called c (Raised e)] /\ o = inr e).
Proof. intros H. inversion H; subst; eauto. Qed.

(** Case analysis on the shape of a run of [w], with every plan played out. *)
Ltac play_out :=
  unfold setup_plan, before_check, after_check in *;
  repeat match goal with
         | H : plays [] _ _ |- _ =>
             apply plays_nil_inv in H; destruct H as [-> ?]; try discriminate; subst
         | H : plays (Std _ :: _) _ _ |- _ =>
             let t' := fresh "t" in let e := fresh "e" in
             apply plays_std_inv in H;
             destruct H as [(t' & -> & H) | (e & -> & H)];
             [ | try discriminate H; try (injection H as ->); subst ]
         | H : plays (Lib _ :: _) _ _ |- _ =>
             let t' := fresh "t" in let v := fresh "v" in let e := fresh "e" in
             apply plays_lib_inv in H;
             destruct H as [(v & t' & -> & H) | (e & -> & H)];
             [ | try discriminate H; try (injection H as ->); subst ]
         end.

Ltac by_shape w :=
  generalize (run_has_shape w);
  generalize (run_outcome w); generalize (run_trace w);
  let t := fresh "t" in let o := fresh "o" in let H := fresh "Hshape" in
  intros t o H; destruct H; play_out.

(** Walking an explicit list to the position a hypothesis speaks of; the
    positions whose event differs by a constructor are dismissed. *)
Ltac walk H k :=
  cbn [app] in H;
  lazymatch type of H with
  | nth_error [] _ = Some _ => exfalso; exact (nth_error_nil_some _ _ H)
  | nth_error (_ :: _) _ = Some _ =>
      destruct k as [|k]; cbn [nth_error] in H;
      [ try discriminate H; try congruence | walk H k ]
  end.

(** Splitting a position of a run into setup, retry loop and what follows. *)
Ltac locate H n :=
  let j := fresh "j" in let e := fresh "e" in let k := fresh "k" in
  let Hj := fresh "Hj" in let Hc := fresh "Hc" in let Hn := fresh "Hn" in
  lazymatch type of H with
  | nth_error (_ ++ cycles _ _ ++ _) _ = Some _ =>
      apply shape_locate in H;
      destruct H as [(Hn & H) | [(j & e & Hj & Hc) | (k & Hn & H)]];
      [ walk H n
      | destruct Hc as [(Hn & Hc) | [(Hn & Hc) | (Hn & Hc)]];
        try discriminate Hc; try congruence
      | walk H k ]
  | _ => walk H n
  end.

(** Splitting a membership in a run into its possible places. *)
Ltac split_in H :=
  cbn [app In] in H;
  lazymatch type of H with
  | False => destruct H
  | _ = _ \/ _ => destruct H as [H|H]; [ | split_in H]
  | In _ (_ ++ _) => apply in_app_or in H; destruct H as [H|H]; [ | split_in H]
  | _ => idtac
  end.

Ltac not_in_cycles H :=
  lazymatch type of H with
  | In _ (cycles _ _) =>
      let c := fresh "c" in let r := fresh "r" in
      apply in_cycles in H; destruct H as (c & r & H)
  | _ => idtac
  end.

(** ** Facts about the retry loop *)

Section Loop.

Local Open Scope nat_scope.

Lemma firstn_cycles (es : list exn) :
  forall i j t, j <= List.length es ->
    firstn (3 * j) (cycles i es ++ t) = cycles i (firstn j es).
Proof.
  induction es as [|e es IH]; intros i j t Hj.
  - cbn [List.length] in Hj. replace j with 0 by lia. reflexivity.
  - destruct j as [|j]; [reflexivity|].
    replace (3 * S j) with (S (S (S (3 * j)))) by lia.
    cbn [cycles failed_cycle app firstn]. cbn [List.length] in Hj.
    rewrite IH by lia. reflexivity.
Qed.

Lemma attempts_before_cycle (s : trace) (es : list exn) (t : trace) (j : nat) :
  goto_results s = [] -> j <= List.length es ->
  attempts (firstn (List.length s + 3 * j) (s ++ cycles 0 es ++ t)) = j.
Proof.
  intros Hs Hj. rewrite firstn_app_2, firstn_cycles by exact Hj.
  unfold attempts. rewrite goto_results_app, Hs, goto_results_cycles.
  cbn [app]. rewrite length_map, length_firstn. lia.
Qed.

Lemma attempts_le_30 (w : world) : attempts (run_trace w) <= 30.
Proof.
  by_shape w.
  all: unfold attempts; rewrite ?goto_results_app, ?goto_results_cycles;
    cbn [goto_results app]; rewrite ?length_app, ?length_map;
    cbn [List.length]; lia.
Qed.

(** What follows an attempt whose exception the handler takes: the progress
    message is printed; when that returns, the sleep is called; when that
    returns, the next attempt is made or, after the thirtieth, line 19 runs. *)
Lemma after_failed_attempt (w : world) (n : nat) (url : string) (tmo : Z) (e : exn) :
  nth_error (run_trace w) n = Some (Called (goto url tmo) (Raised e)) ->
  isinstance e Exception = true ->
  exists k r1,
    k < 30 /\ attempts (firstn n (run_trace w)) = k /\
    url = home_url /\ tmo = 5000%Z /\
    nth_error (run_trace w) (n + 1) = Some (Called (print (waiting_message k)) r1) /\
    (forall v1, r1 = Returned v1 ->
       v1 = VNone /\
       exists r2,
         nth_error (run_trace w) (n + 2) = Some (Called (sleep 2) r2) /\
         (forall v2, r2 = Returned v2 ->
            v2 = VNone /\
            (k < 29 -> exists r, nth_error (run_trace w) (n + 3)
                                 = Some (Called (goto home_url 5000) r)) /\
            (k = 29 -> nth_error (run_trace w) (n + 3) = Some (Raising server_failed)))).
Proof.
  by_shape w; intros Hn He; locate Hn n.
  (* the attempt is one of the complete cycles *)
  all: try match goal with
       | Hc : Called (goto _ _) (Raised _) = Called (goto _ _) (Raised _),
         Hj : nth_error ?es ?j = Some _ |- context [nth_error (?s ++ cycles 0 ?es ++ ?t)] =>
           injection Hc as -> -> ->;
           let Hlt := fresh "Hlt" in
           let G0 := fresh "G" in let G1 := fresh "G" in let G2 := fresh "G" in
           assert (Hlt : j < List.length es) by (apply nth_error_Some; congruence);
           destruct (shape_in_cycle s 0 es t j _ Hj) as (G0 & G1 & G2);
           exists j, (Returned VNone); subst n;
           split; [lia|];
           split; [apply attempts_before_cycle; [reflexivity|lia]|];
           split; [reflexivity|]; split; [reflexivity|];
           split; [exact G1|];
           let Hv := fresh "Hv" in
           intros ? Hv; injection Hv as <-; split; [reflexivity|];
           exists (Returned VNone); split; [exact G2|];
           let Hv' := fresh "Hv" in
           intros ? Hv'; injection Hv' as <-; split; [reflexivity|];
           let e2 := fresh "e" in let Hnext := fresh "Hnext" in
           let G3 := fresh "G" in
           destruct (nth_error es (S j)) as [e2|] eqn:Hnext;
           [ destruct (shape_in_cycle s 0 es t (S j) e2 Hnext) as (G3 & _ & _);
             replace (List.length s + 3 * j + 3) with (List.length s + 3 * S j) by lia;
             split; [intros _; eexists; exact G3 | intros ->; exfalso];
             assert (30 < List.length es) by (apply nth_error_Some; congruence); lia
           | apply nth_error_None in Hnext;
             rewrite (shape_in_tail s 0 es t (List.length s + 3 * j + 3) 0) by lia;
             cbn [nth_error];
             split; [intros ?; try (eexists; reflexivity); exfalso; lia
                    | intros ->; try reflexivity; exfalso; lia] ]
       end.
  (* the attempt is the one whose handler was cut short *)
  all: injection Hn as <- <- <-.
  all: match goal with
       | Hn : ?p = List.length ?s + 3 * List.length ?es + 0
         |- context [nth_error (?s ++ cycles 0 ?es ++ ?t)] =>
           exists (List.length es); eexists;
           split; [lia|];
           split; [replace p with (List.length s + 3 * List.length es) by lia;
                   apply attempts_before_cycle; [reflexivity|lia]|];
           split; [reflexivity|]; split; [reflexivity|];
           split; [rewrite (shape_in_tail s 0 es t (p + 1) 1) by lia; reflexivity|]
       end.
  all: intros x Hx; try discriminate Hx.
  all: split; [congruence|]; eexists; split.
  all: try match goal with
           | Hn : ?p = List.length ?s + 3 * List.length ?es + 0
             |- nth_error (?s ++ cycles 0 ?es ++ ?t) _ = _ =>
               rewrite (shape_in_tail s 0 es t (p + 2) 2) by lia; reflexivity
           end.
  all: intros y Hy; discriminate Hy.
Qed.

(** What follows the attempt that succeeds. *)
Lemma after_success (w : world) (n : nat) (url : string) (tmo : Z) (v : value) :
  nth_error (run_trace w) n = Some (Called (goto url tmo) (Returned v)) ->
  url = home_url /\ tmo = 5000%Z /\
  (exists r1,
     nth_error (run_trace w) (n + 1) = Some (Called (print "Filling URL...") r1) /\
     forall v1, r1 = Returned v1 ->
       exists r2, nth_error (run_trace w) (n + 2)
                  = Some (Called (fill url_input test_video_url) r2)) /\
  (forall m c r, n < m -> nth_error (run_trace w) m = Some (Called c r) -> is_goto c = false) /\
  (forall e, ~ In (Raising e) (run_trace w)).
Proof.
  by_shape w; intros Hn; locate Hn n.
  all: injection Hn as -> -> ->.
  all: split; [reflexivity|]; split; [reflexivity|].
  all: match goal with
       | Hn : ?p = List.length ?s + 3 * List.length ?es + 0 |- _ =>
           split; [eexists;
                   split; [rewrite (shape_in_tail s 0 es _ (p + 1) 1) by lia; reflexivity|];
                   let x := fresh "x" in let Hx := fresh "Hx" in
                   intros x Hx; try discriminate Hx;
                   eexists; rewrite (shape_in_tail s 0 es _ (p + 2) 2) by lia; reflexivity|]
       end.
  all: split.
  all: try (intros m c r Hlt Hm; locate Hm m;
            try (injection Hm as <- <-; reflexivity);
            try (injection Hc as -> ->; reflexivity);
            exfalso;
            try match goal with
                | Hj : nth_error ?es ?j = Some _ |- _ =>
                    assert (j < List.length es) by (apply nth_error_Some; congruence)
                end;
            cbn [List.length] in *; lia).
  all: intros e' Hin; apply in_app_or in Hin; destruct Hin as [Hin|Hin];
    [|apply in_app_or in Hin; destruct Hin as [Hin|Hin];
      [apply in_cycles in Hin; destruct Hin as (c & r & Hin); discriminate Hin|]];
    cbn [In app] in Hin; intuition discriminate.
Qed.

Lemma forallb_failed_raised (es : list exn) :
  forallb failed (map Raised es) = forallb (fun x => isinstance x Exception) es.
Proof. induction es as [|e es IH]; [reflexivity|]. cbn [map forallb failed]. rewrite IH. reflexivity. Qed.

Lemma two_second_sleeps_app (t u : trace) :
  two_second_sleeps (t ++ u) = two_second_sleeps t + two_second_sleeps u.
Proof.
  induction t as [|ev t IH]; [reflexivity|].
  cbn [app two_second_sleeps].
  destruct ev as [c r|e]; [|exact IH].
  destruct c; try exact IH.
  destruct seconds as [|p|p]; try exact IH.
  destruct p as [p|p|]; try exact IH.
  destruct p; try exact IH.
  destruct r; [|exact IH]. cbn [Nat.add]. rewrite IH. reflexivity.
Qed.

Lemma two_second_sleeps_cycles (es : list exn) :
  forall i, two_second_sleeps (cycles i es) = List.length es.
Proof.
  induction es as [|e es IH]; intros i; [reflexivity|].
  cbn [cycles failed_cycle app two_second_sleeps List.length]. rewrite IH. reflexivity.
Qed.

(** Line 19 runs exactly when thirty attempts failed and each was followed
    by its sleep. *)
Lemma raising_iff_exhausted (w : world) :
  In (Raising server_failed) (run_trace w)
  <-> attempts (run_trace w) = 30
      /\ forallb failed (goto_results (run_trace w)) = true
      /\ two_second_sleeps (run_trace w) = 30.
Proof.
  by_shape w.
  all: unfold attempts;
    rewrite ?goto_results_app, ?goto_results_cycles,
      ?two_second_sleeps_app, ?two_second_sleeps_cycles;
    cbn [goto_results two_second_sleeps app];
    rewrite ?forallb_app, ?forallb_failed_raised, ?length_app, ?length_map;
    cbn [List.length forallb failed].
  all: split.
  all: try (intros (Hl & Hf & Hz); exfalso;
            first [ discriminate Hf | lia
                  | apply andb_prop in Hf; destruct Hf as [_ Hf];
                    rewrite ?andb_true_r in Hf; congruence ]).
  all: try (intros Hin; exfalso; split_in Hin; not_in_cycles Hin; discriminate Hin).
  - intros _. split; [lia|]. split; [rewrite andb_true_r; assumption|lia].
  - intros _. do 4 right. apply in_or_app. right. left. reflexivity.
Qed.

Lemma raising_ends_run (w : world) (e : exn) :
  In (Raising e) (run_trace w) ->
  e = server_failed /\ run_outcome w = inr server_failed /\
  (forall c r, In (Called c r) (run_trace w) -> form_interaction c = false) /\
  exists s es,
    goto_results s = [] /\ two_second_sleeps s = 0 /\ List.length es = 30 /\
    run_trace w = s ++ cycles 0 es ++ [Raising server_failed].
Proof.
  by_shape w; intros Hin.
  all: split_in Hin; not_in_cycles Hin; try discriminate Hin.
  injection Hin as <-.
  split; [reflexivity|]. split; [reflexivity|]. split.
  - intros c r Hc. split_in Hc; try (injection Hc as <- <-; reflexivity);
      try discriminate Hc.
    exact (in_cycles_call _ _ _ _ Hc).
  - eexists _, es. split; [|split; [|split; [eassumption|reflexivity]]]; reflexivity.
Qed.

Lemma cycles_snoc (es : list exn) :
  forall i e, cycles i (es ++ [e]) = cycles i es ++ failed_cycle (i + List.length es) e.
Proof.
  induction es as [|e0 es IH]; intros i e.
  - cbn [app cycles List.length]. rewrite Nat.add_0_r, app_nil_r. reflexivity.
  - cbn [app cycles List.length]. rewrite IH, <- app_assoc.
    replace (S i + List.length es) with (i + S (List.length es)) by lia. reflexivity.
Qed.

Lemma length_cycles (es : list exn) :
  forall i, List.length (cycles i es) = 3 * List.length es.
Proof.
  induction es as [|e es IH]; intros i; [reflexivity|].
  cbn [cycles failed_cycle app List.length]. rewrite IH. lia.
Qed.

Lemma artifacts_app (t u : trace) : artifacts (t ++ u) = artifacts t ++ artifacts u.
Proof.
  induction t as [|ev t IH]; [reflexivity|].
  cbn [app artifacts]. destruct ev as [c r|e]; [|exact IH].
  destruct c; try exact IH. destruct r; [|exact IH].
  cbn [app]. rewrite IH. reflexivity.
Qed.

Lemma artifacts_cycles (es : list exn) : forall i, artifacts (cycles i es) = [].
Proof.
  induction es as [|e es IH]; intros i; [reflexivity|].
  cbn [cycles failed_cycle app artifacts]. apply IH.
Qed.

Lemma closes_app (t u : trace) : closes (t ++ u) = closes t || closes u.
Proof. apply existsb_app. Qed.

Lemma closes_cycles (es : list exn) : forall i, closes (cycles i es) = false.
Proof.
  induction es as [|e es IH]; intros i; [reflexivity|].
  cbn [cycles]. rewrite closes_app, IH. reflexivity.
Qed.

Lemma requested_app (t u : trace) : (requested (t ++ u) = requested t + requested u)%Z.
Proof.
  induction t as [|[c r|e] t IH]; cbn [app requested]; [reflexivity| |exact IH].
  rewrite IH. lia.
Qed.

Lemma requested_cycles (es : list exn) :
  forall i, (requested (cycles i es) = 7000 * Z.of_nat (List.length es))%Z.
Proof.
  induction es as [|e es IH]; intros i; [reflexivity|].
  cbn [cycles]. rewrite requested_app, IH.
  cbn [failed_cycle requested requested_ms List.length]. lia.
Qed.

Lemma in_cycles_requested (es : list exn) :
  forall i c r, In (Called c r) (cycles i es) -> In (requested_ms c) [0; 1000; 2000; 5000; 10000]%Z.
Proof.
  induction es as [|e es IH]; intros i c r Hin; [destruct Hin|].
  cbn [cycles failed_cycle app In] in Hin.
  destruct Hin as [Hin|[Hin|[Hin|Hin]]]; try (injection Hin as <- <-; cbn; tauto).
  exact (IH _ _ _ Hin).
Qed.

(** An exception of the navigation that is not below Exception passes the
    handler by and ends the run. *)
Lemma uncaught_attempt_ends_run (w : world) (n : nat) (url : string) (tmo : Z) (e : exn) :
  nth_error (run_trace w) n = Some (Called (goto url tmo) (Raised e)) ->
  isinstance e Exception = false ->
  run_outcome w = inr e /\ List.length (run_trace w) = S n.
Proof.
  by_shape w; intros Hn He; locate Hn n.
  all: try match goal with
           | Hc : Called _ _ = Called _ _ |- _ => injection Hc as -> -> ->
           end.
  all: try match goal with
           | Hj : nth_error ?es _ = Some ?x,
             Hes : forallb _ ?es = true |- _ =>
               exfalso; apply nth_error_In in Hj;
               rewrite forallb_forall in Hes; specialize (Hes _ Hj); cbv beta in Hes;
               congruence
           end.
  injection Hn as <- <- <-.
  split; [reflexivity|].
  rewrite !length_app, length_cycles; cbn [List.length app] in *; lia.
Qed.

Lemma calls_to_app (op : call) (t u : trace) :
  calls_to op (t ++ u) = calls_to op t ++ calls_to op u.
Proof.
  induction t as [|[c r|e] t IH]; cbn [app calls_to]; [reflexivity| |exact IH].
  destruct (same_operation op c); cbn [app]; rewrite IH; reflexivity.
Qed.

Lemma calls_to_cycles (op : call) (es : list exn) :
  is_builtin op = false ->
  forall i, calls_to op (cycles i es)
            = if is_goto op then repeat (goto home_url 5000) (List.length es) else [].
Proof.
  intros Hop. induction es as [|e es IH]; intros i.
  - destruct (is_goto op); reflexivity.
  - cbn [cycles]. rewrite calls_to_app, IH.
    destruct op; try discriminate Hop; reflexivity.
Qed.

Lemma firstn_repeat {A : Type} (x : A) (n m : nat) :
  n <= m -> firstn n (repeat x m) = repeat x n.
Proof.
  revert m. induction n as [|n IH]; intros m Hle; [reflexivity|].
  destruct m as [|m]; [lia|]. cbn [repeat firstn]. rewrite IH by lia. reflexivity.
Qed.

Lemma nth_error_firstn_some {A : Type} (l : list A) (n k : nat) (x : A) :
  nth_error (firstn n l) k = Some x -> nth_error l k = Some x.
Proof.
  revert n k. induction l as [|a l IH]; intros n k Hk.
  - rewrite firstn_nil in Hk. destruct k; discriminate Hk.
  - destruct n as [|n]; [destruct k; discriminate Hk|].
    destruct k as [|k]; [exact Hk|]. cbn [firstn nth_error] in Hk. exact (IH _ _ Hk).
Qed.

(** The calls a run makes of one browser operation are an initial part of
    those of the reference sequence. *)
Lemma reference_goto (url : string) (tmo : Z) :
  filter (same_operation (goto url tmo)) reference_calls = repeat (goto home_url 5000) 30.
Proof. reflexivity. Qed.

Lemma calls_to_reference (w : world) (op : call) :
  is_builtin op = false ->
  exists n, calls_to op (run_trace w) = firstn n (filter (same_operation op) reference_calls).
Proof.
  intros Hop. by_shape w.
  all: rewrite ?calls_to_app, ?(calls_to_cycles op _ Hop).
  all: destruct op; try discriminate Hop.
  all: cbn [calls_to same_operation is_goto app].
  all: try (match goal with |- exists n, ?l = _ => exists (List.length l) end; reflexivity).
  all: rewrite reference_goto.
  all: match goal with
       | |- exists n, repeat _ ?a ++ ?l = _ =>
           exists (a + List.length l);
           rewrite firstn_repeat by (cbn [List.length]; lia);
           rewrite repeat_app; reflexivity
       end.
Qed.

(** The [k]-th call of a browser operation has the same arguments in any two
    runs. *)
Lemma same_arguments (w1 w2 : world) (op : call) (k : nat) (c1 c2 : call) :
  is_builtin op = false ->
  nth_error (calls_to op (run_trace w1)) k = Some c1 ->
  nth_error (calls_to op (run_trace w2)) k = Some c2 ->
  c1 = c2.
Proof.
  intros Hop H1 H2.
  destruct (calls_to_reference w1 op Hop) as (n1 & E1).
  destruct (calls_to_reference w2 op Hop) as (n2 & E2).
  rewrite E1 in H1. rewrite E2 in H2.
  apply nth_error_firstn_some in H1. apply nth_error_firstn_some in H2. congruence.
Qed.

Lemma in_cycles_literal (es : list exn) :
  forall i c r,
    i + List.length es <= 30 ->
    In (Called c r) (cycles i es) ->
    In c literal_calls \/ exists k, k < 30 /\ c = print (waiting_message k).
Proof.
  induction es as [|e es IH]; intros i c r Hle Hin; [destruct Hin|].
  cbn [List.length] in Hle. cbn [cycles failed_cycle app In] in Hin.
  destruct Hin as [Hin|[Hin|[Hin|Hin]]].
  - injection Hin as <- <-. left. cbn. tauto.
  - injection Hin as <- <-. right. exists i. split; [lia|reflexivity].
  - injection Hin as <- <-. left. cbn. tauto.
  - apply (IH (S i) c r); [lia|exact Hin].
Qed.

Lemma calls_are_literals (w : world) (c : call) (r : result) :
  In (Called c r) (run_trace w) ->
  In c literal_calls \/ exists k, k < 30 /\ c = print (waiting_message k).
Proof.
  by_shape w; intros Hin; split_in Hin.
  all: try discriminate Hin.
  all: try (eapply in_cycles_literal; [|exact Hin]; lia).
  all: injection Hin as <- <-.
  all: try (right; eexists; split; [|reflexivity]; lia).
  all: left.
  all: unfold diagnostic; try match goal with |- context [truthy ?v] => destruct (truthy v) end.
  all: unfold literal_calls; repeat first [left; reflexivity | right].
Qed.


End Loop.

(** Reading the run at a position after the loop. *)
Ltac tail_at k :=
  lazymatch goal with
  | |- nth_error (?s ++ cycles ?i ?es ++ ?t) ?q = _ =>
      rewrite (shape_in_tail s i es t q k) by lia; try reflexivity
  end.

(** * The claims *)

Section Claims.

Local Open Scope nat_scope.

(** C1 fails when the sleep after the thirtieth failed attempt is
    interrupted: all thirty attempts have failed, yet the run ends in
    KeyboardInterrupt and line 19 never runs. *)
Lemma thirty_failures_without_generic_failure :
  attempts (run_trace last_sleep_interrupted) = 30
  /\ forallb failed (goto_results (run_trace last_sleep_interrupted)) = true
  /\ ~ In (Raising server_failed) (run_trace last_sleep_interrupted)
  /\ run_outcome last_sleep_interrupted = inr (mk_exn KeyboardInterrupt "")
  /\ ~ failure_iff_attempts_fail.
Proof.
  assert (Ha : attempts (run_trace last_sleep_interrupted) = 30)
    by (vm_compute; reflexivity).
  assert (Hf : forallb failed (goto_results (run_trace last_sleep_interrupted)) = true)
    by (vm_compute; reflexivity).
  assert (Hr : ~ In (Raising server_failed) (run_trace last_sleep_interrupted)).
  { intros Hin.
    destruct (proj1 (raising_iff_exhausted last_sleep_interrupted) Hin) as (_ & _ & Hz).
    vm_compute in Hz. discriminate Hz. }
  split; [exact Ha|]. split; [exact Hf|]. split; [exact Hr|].
  split; [vm_compute; reflexivity|].
  intros Hall. apply Hr.
  exact (proj2 (Hall last_sleep_interrupted) (conj Ha Hf)).
Qed.

(** C1, amended. The script's own [raise] (line 19, the generic "Server
    failed to start") runs if and only if all thirty navigation attempts fail
    and each is followed by its sleep of 2 seconds having returned. When it
    runs, it is the outcome of the run and no form interaction was made; it is
    the only exception the script raises itself. When an attempt succeeds,
    the raise does not run, the next event is the print of "Filling URL...",
    and when that returns the URL field is filled. *)
Theorem generic_failure_iff_loop_exhausted (w : world) :
  (In (Raising server_failed) (run_trace w)
   <-> attempts (run_trace w) = 30
       /\ forallb failed (goto_results (run_trace w)) = true
       /\ two_second_sleeps (run_trace w) = 30)
  /\ (In (Raising server_failed) (run_trace w) ->
      run_outcome w = inr server_failed /\
      forall c r, In (Called c r) (run_trace w) -> form_interaction c = false)
  /\ (forall e, In (Raising e) (run_trace w) -> e = server_failed)
  /\ (forall n v,
        nth_error (run_trace w) n = Some (Called (goto home_url 5000) (Returned v)) ->
        ~ In (Raising server_failed) (run_trace w) /\
        exists r1,
          nth_error (run_trace w) (n + 1) = Some (Called (print "Filling URL...") r1) /\
          forall v1, r1 = Returned v1 ->
            exists r2, nth_error (run_trace w) (n + 2)
                       = Some (Called (fill url_input test_video_url) r2)).
Proof.
  split; [apply raising_iff_exhausted|].
  split; [intros Hin; destruct (raising_ends_run w _ Hin) as (_ & Ho & Hc & _); auto|].
  split; [intros e Hin; apply (raising_ends_run w e Hin)|].
  intros n v Hn.
  destruct (after_success w n _ _ v Hn) as (_ & _ & Hnext & _ & Hraise).
  split; [apply Hraise|exact Hnext].
Qed.


(** C9 fails when the sleep of the handler is interrupted: the first
    navigation fails with a refused connection, which the handler takes, but
    the run ends in the sleep and no further attempt is made. *)
Lemma caught_failure_without_retry :
  nth_error (run_trace first_sleep_interrupted) 4
  = Some (Called (goto home_url 5000) (Raised refused))
  /\ isinstance refused Exception = true
  /\ run_trace first_sleep_interrupted
     = [ Called (chromium_launch true) (Returned VObject);
         Called (new_context 1280 720) (Returned VObject);
         Called new_page (Returned VObject);
         Called (print "Navigating to home page...") (Returned VNone);
         Called (goto home_url 5000) (Raised refused);
         Called (print (waiting_message 0)) (Returned VNone);
         Called (sleep 2) (Raised (mk_exn KeyboardInterrupt "")) ]
  /\ ~ caught_failure_always_retried.
Proof.
  split; [vm_compute; reflexivity|]. split; [reflexivity|].
  split; [vm_compute; reflexivity|].
  intros Hall.
  destruct (Hall first_sleep_interrupted 4 home_url 5000%Z refused) as [(r & Hr) | Hr];
    try (vm_compute; reflexivity); vm_compute in Hr; discriminate Hr.
Qed.

(** C9, amended. The handler of the retry loop takes whatever exception
    page.goto raises, whatever its class below Exception and whatever its
    message (Playwright's Error and its TimeoutError are both below
    Exception): the [k]-th attempt having failed, the next event is the print
    of the progress message for [k]; when that returns, sleep(2) is called;
    and when that returns, the script navigates again if fewer than thirty
    attempts have been made, or gives up with the generic failure after the
    thirtieth. *)
Theorem caught_failure_is_retried_after_handler
        (w : world) (n : nat) (url : string) (tmo : Z) (e : exn) :
  nth_error (run_trace w) n = Some (Called (goto url tmo) (Raised e)) ->
  isinstance e Exception = true ->
  exists k r1,
    k < 30 /\ attempts (firstn n (run_trace w)) = k /\
    nth_error (run_trace w) (n + 1) = Some (Called (print (waiting_message k)) r1) /\
    (forall v1, r1 = Returned v1 ->
       exists r2,
         nth_error (run_trace w) (n + 2) = Some (Called (sleep 2) r2) /\
         (forall v2, r2 = Returned v2 ->
            (k < 29 -> exists r, nth_error (run_trace w) (n + 3)
                                 = Some (Called (goto home_url 5000) r)) /\
            (k = 29 -> nth_error (run_trace w) (n + 3) = Some (Raising server_failed)))).
Proof.
  intros Hn He.
  destruct (after_failed_attempt w n url tmo e Hn He)
    as (k & r1 & Hk & Ha & _ & _ & Hp & Hchain).
  exists k, r1. split; [exact Hk|]. split; [exact Ha|]. split; [exact Hp|].
  intros v1 Hv1. destruct (Hchain v1 Hv1) as (_ & r2 & Hs & Hchain2).
  exists r2. split; [exact Hs|].
  intros v2 Hv2. destruct (Hchain2 v2 Hv2) as (_ & Hretry). exact Hretry.
Qed.

Lemma caught_failure_is_retried_after_handler_witness :
  nth_error (run_trace server_down) 4
  = Some (Called (goto home_url 5000) (Raised navigation_timeout))
  /\ isinstance navigation_timeout Exception = true
  /\ exists k r1,
      k < 30 /\ attempts (firstn 4 (run_trace server_down)) = k /\
      nth_error (run_trace server_down) (4 + 1)
      = Some (Called (print (waiting_message k)) r1) /\
      (forall v1, r1 = Returned v1 ->
         exists r2,
           nth_error (run_trace server_down) (4 + 2) = Some (Called (sleep 2) r2) /\
           (forall v2, r2 = Returned v2 ->
              (k < 29 -> exists r, nth_error (run_trace server_down) (4 + 3)
                                   = Some (Called (goto home_url 5000) r)) /\
              (k = 29 -> nth_error (run_trace server_down) (4 + 3)
                         = Some (Raising server_failed)))).
Proof.
  split; [vm_compute; reflexivity|]. split; [reflexivity|].
  apply (caught_failure_is_retried_after_handler
           server_down 4 home_url 5000%Z navigation_timeout);
    vm_compute; reflexivity.
Defined.

(** C10 fails on the same run as C1: all thirty attempts fail, the sleep after
    the last of them is interrupted, and the run ends there, with neither a
    full last sleep nor the generic failure. *)
Lemma thirty_failures_without_last_sleep :
  attempts (run_trace last_sleep_interrupted) = 30
  /\ forallb failed (goto_results (run_trace last_sleep_interrupted)) = true
  /\ two_second_sleeps (run_trace last_sleep_interrupted) = 29
  /\ skipn 91 (run_trace last_sleep_interrupted)
     = [ Called (goto home_url 5000) (Raised refused);
         Called (print (waiting_message 29)) (Returned VNone);
         Called (sleep 2) (Raised (mk_exn KeyboardInterrupt "")) ]
  /\ ~ failed_attempts_end_in_failure.
Proof.
  split; [vm_compute; reflexivity|]. split; [vm_compute; reflexivity|].
  split; [vm_compute; reflexivity|]. split; [vm_compute; reflexivity|].
  intros Hall.
  destruct (Hall last_sleep_interrupted) as (pre & Hpre);
    try (vm_compute; reflexivity).
  assert (Hin : In (Raising server_failed) (run_trace last_sleep_interrupted))
    by (rewrite Hpre; apply in_or_app; right; right; left; reflexivity).
  destruct (proj1 (raising_iff_exhausted last_sleep_interrupted) Hin) as (_ & _ & Hz).
  vm_compute in Hz. discriminate Hz.
Qed.

(** C10, amended. When the generic failure is raised, the run ends with a
    complete thirtieth cycle (the failed navigation, the message for attempt
    29, a sleep of 2 seconds that returned) and only then the raise of
    "Server failed to start"; the twenty-nine attempts before it were each
    followed by their sleep too. *)
Theorem server_failed_follows_thirty_cycles (w : world) :
  In (Raising server_failed) (run_trace w) ->
  exists pre e,
    run_trace w = pre ++ failed_cycle 29 e ++ [Raising server_failed] /\
    attempts pre = 29 /\ two_second_sleeps pre = 29 /\
    two_second_sleeps (run_trace w) = 30 /\
    run_outcome w = inr server_failed.
Proof.
  intros Hin.
  destruct (raising_ends_run w _ Hin) as (_ & Ho & _ & s & es & Hs & Hz & Hl & Ht).
  destruct (exists_last (l := es)) as (es' & e & ->);
    [intros ->; discriminate Hl|].
  rewrite length_app in Hl. cbn [List.length] in Hl.
  rewrite cycles_snoc in Ht. replace (0 + List.length es') with 29 in Ht by lia.
  exists (s ++ cycles 0 es'), e.
  split; [rewrite Ht; repeat rewrite <- app_assoc; reflexivity|].
  split; [unfold attempts; rewrite goto_results_app, Hs, goto_results_cycles;
          cbn [app]; rewrite length_map; lia|].
  assert (Hpre : two_second_sleeps (s ++ cycles 0 es') = 29)
    by (rewrite two_second_sleeps_app, Hz, two_second_sleeps_cycles; lia).
  split; [exact Hpre|].
  split; [|exact Ho].
  rewrite Ht, !two_second_sleeps_app, Hz, two_second_sleeps_cycles.
  cbn [failed_cycle two_second_sleeps]. lia.
Qed.

Lemma server_failed_follows_thirty_cycles_witness :
  In (Raising server_failed) (run_trace server_down)
  /\ exists pre e,
      run_trace server_down = pre ++ failed_cycle 29 e ++ [Raising server_failed] /\
      attempts pre = 29 /\ two_second_sleeps pre = 29 /\
      two_second_sleeps (run_trace server_down) = 30 /\
      run_outcome server_down = inr server_failed.
Proof.
  assert (Hin : In (Raising server_failed) (run_trace server_down)).
  { replace (run_trace server_down)
      with (firstn 94 (run_trace server_down) ++ [Raising server_failed])
      by (vm_compute; reflexivity).
    apply in_or_app. right. left. reflexivity. }
  split; [exact Hin|].
  exact (server_failed_follows_thirty_cycles server_down Hin).
Defined.

(** C3 fails when the print of the diagnostic is interrupted: the visibility
    check has answered, but the run ends in that print, with no screenshot
    and the browser left open. *)
Lemma check_answered_without_screenshot :
  nth_error (run_trace interrupted_after_check) 17
  = Some (Called is_visible (Returned (VBool true)))
  /\ skipn 17 (run_trace interrupted_after_check)
     = [ Called is_visible (Returned (VBool true));
         Called (print "Controls are visible!") (Raised (mk_exn KeyboardInterrupt "")) ]
  /\ run_outcome interrupted_after_check = inr (mk_exn KeyboardInterrupt "")
  /\ ~ check_always_reaches_screenshot.
Proof.
  split; [vm_compute; reflexivity|]. split; [vm_compute; reflexivity|].
  split; [vm_compute; reflexivity|].
  intros Hall.
  destruct (Hall interrupted_after_check 17 (VBool true)) as (r & Hr);
    [vm_compute; reflexivity|].
  vm_compute in Hr. discriminate Hr.
Qed.

(** C3, amended. Whatever the visibility check answers, the run goes on the
    same way and the check itself raises nothing: the next event is the print
    of the matching diagnostic; when that returns, the screenshot message is
    printed; when that returns, the screenshot is taken; when that returns,
    the browser is closed; and when that returns too the run ends normally. *)
Theorem run_goes_on_after_visibility_check (w : world) (n : nat) (visible : value) :
  nth_error (run_trace w) n = Some (Called is_visible (Returned visible)) ->
  exists r1,
    nth_error (run_trace w) (n + 1)
    = Some (Called (print (if truthy visible
                           then "Controls are visible!"
                           else "Controls NOT visible!")) r1)
    /\ forall v1, r1 = Returned v1 ->
       exists r2,
         nth_error (run_trace w) (n + 2) = Some (Called (print "Taking screenshot...") r2)
         /\ forall v2, r2 = Returned v2 ->
            exists r3,
              nth_error (run_trace w) (n + 3)
              = Some (Called (screenshot screenshot_path) r3)
              /\ forall v3, r3 = Returned v3 ->
                 exists r4,
                   nth_error (run_trace w) (n + 4) = Some (Called browser_close r4)
                   /\ forall v4, r4 = Returned v4 -> run_outcome w = inl tt.
Proof.
  by_shape w; intros Hn; locate Hn n.
  all: injection Hn as <-.
  all: eexists; split; [tail_at 14|].
  all: intros x1 Hx1; try discriminate Hx1.
  all: eexists; split; [tail_at 15|].
  all: intros x2 Hx2; try discriminate Hx2.
  all: eexists; split; [tail_at 16|].
  all: intros x3 Hx3; try discriminate Hx3.
  all: eexists; split; [tail_at 17|].
  all: intros x4 Hx4; try discriminate Hx4; reflexivity.
Qed.

Lemma run_goes_on_after_visibility_check_witness :
  nth_error (run_trace (server_up_after 0 false)) 17
  = Some (Called is_visible (Returned (VBool false)))
  /\ exists r1,
      nth_error (run_trace (server_up_after 0 false)) (17 + 1)
      = Some (Called (print (if truthy (VBool false)
                             then "Controls are visible!"
                             else "Controls NOT visible!")) r1)
      /\ forall v1, r1 = Returned v1 ->
         exists r2,
           nth_error (run_trace (server_up_after 0 false)) (17 + 2)
           = Some (Called (print "Taking screenshot...") r2)
           /\ forall v2, r2 = Returned v2 ->
              exists r3,
                nth_error (run_trace (server_up_after 0 false)) (17 + 3)
                = Some (Called (screenshot screenshot_path) r3)
                /\ forall v3, r3 = Returned v3 ->
                   exists r4,
                     nth_error (run_trace (server_up_after 0 false)) (17 + 4)
                     = Some (Called browser_close r4)
                     /\ forall v4, r4 = Returned v4 ->
                                   run_outcome (server_up_after 0 false) = inl tt.
Proof.
  split; [vm_compute; reflexivity|].
  apply (run_goes_on_after_visibility_check (server_up_after 0 false) 17 (VBool false)).
  vm_compute. reflexivity.
Defined.

(** C4. A run that ends normally wrote exactly one file, the screenshot at
    "verification_controls.png"; the screenshot call comes after the
    visibility check and directly before browser.close(), which is the last
    event of the run. *)
Theorem one_screenshot_on_success (w : world) :
  run_outcome w = inl tt ->
  artifacts (run_trace w) = ["verification_controls.png"]
  /\ exists i j visible v v',
      i < j /\
      nth_error (run_trace w) i = Some (Called is_visible (Returned visible)) /\
      nth_error (run_trace w) j
      = Some (Called (screenshot "verification_controls.png") (Returned v)) /\
      nth_error (run_trace w) (j + 1) = Some (Called browser_close (Returned v')) /\
      List.length (run_trace w) = j + 2.
Proof.
  by_shape w; intros Ho; try discriminate Ho.
  split.
  - rewrite !artifacts_app, artifacts_cycles. reflexivity.
  - match goal with
    | |- context [nth_error (?s ++ cycles 0 ?es ++ _)] =>
        exists (List.length s + 3 * List.length es + 13),
               (List.length s + 3 * List.length es + 16)
    end.
    do 3 eexists. split; [lia|].
    split; [tail_at 13|]. split; [tail_at 16|]. split; [tail_at 17|].
    rewrite !length_app, length_cycles. cbn [List.length app]. lia.
Qed.

Lemma one_screenshot_on_success_witness :
  run_outcome (server_up_after 2 true) = inl tt
  /\ (artifacts (run_trace (server_up_after 2 true)) = ["verification_controls.png"]
      /\ exists i j visible v v',
          i < j /\
          nth_error (run_trace (server_up_after 2 true)) i
          = Some (Called is_visible (Returned visible)) /\
          nth_error (run_trace (server_up_after 2 true)) j
          = Some (Called (screenshot "verification_controls.png") (Returned v)) /\
          nth_error (run_trace (server_up_after 2 true)) (j + 1)
          = Some (Called browser_close (Returned v')) /\
          List.length (run_trace (server_up_after 2 true)) = j + 2).
Proof.
  split; [vm_compute; reflexivity|].
  apply (one_screenshot_on_success (server_up_after 2 true)). vm_compute. reflexivity.
Defined.

(** C6. When filling the URL field, clicking the start button or waiting for
    the video element raises, that exception is the outcome of the run and
    the raising call is the last event: the script handles none of them. *)
Theorem interaction_failures_propagate (w : world) (n : nat) (c : call) (e : exn) :
  interaction_step c = true ->
  nth_error (run_trace w) n = Some (Called c (Raised e)) ->
  run_outcome w = inr e /\ List.length (run_trace w) = S n.
Proof.
  by_shape w; intros Hc Hn; locate Hn n.
  all: try (injection Hn as <- <-); try discriminate Hc.
  all: try match goal with
           | H : Called _ _ = Called _ _ |- _ => injection H as -> ->; discriminate Hc
           end.
  all: split; [reflexivity|].
  all: rewrite !length_app, length_cycles; cbn [List.length app] in *; lia.
Qed.

Lemma interaction_failures_propagate_witness :
  interaction_step (click start_button) = true
  /\ nth_error (run_trace (breaks_at (fun c => match c with click _ => true | _ => false end)
                                      navigation_timeout)) 8
     = Some (Called (click start_button) (Raised navigation_timeout))
  /\ run_outcome (breaks_at (fun c => match c with click _ => true | _ => false end)
                            navigation_timeout) = inr navigation_timeout
  /\ List.length (run_trace (breaks_at (fun c => match c with click _ => true | _ => false end)
                                       navigation_timeout)) = 9.
Proof.
  split; [reflexivity|]. split; [vm_compute; reflexivity|].
  apply (interaction_failures_propagate _ 8 (click start_button) navigation_timeout);
    [reflexivity | vm_compute; reflexivity].
Defined.

(** C5 fails when the server never answers: the browser is launched, the run
    ends in "Server failed to start", and browser.close() was never called. *)
Lemma browser_left_open_when_server_down :
  nth_error (run_trace server_down) 0 = Some (Called (chromium_launch true) (Returned VObject))
  /\ run_outcome server_down = inr server_failed
  /\ closes (run_trace server_down) = false
  /\ ~ every_path_closes_browser.
Proof.
  split; [vm_compute; reflexivity|]. split; [vm_compute; reflexivity|].
  split; [vm_compute; reflexivity|].
  intros Hall. specialize (Hall server_down).
  assert (Hc : closes (run_trace server_down) = true)
    by (apply Hall; exists VObject; vm_compute; reflexivity).
  vm_compute in Hc. discriminate Hc.
Qed.

(** C5, amended. The launch of the browser is the first call of every run.
    A run that ends normally ends with browser.close(), its only call of it.
    A run that ends in an exception either never called browser.close(), or
    called it last and the exception is the one that call raised. *)
Theorem browser_closed_on_normal_paths_only (w : world) :
  (exists r, nth_error (run_trace w) 0 = Some (Called (chromium_launch true) r))
  /\ (run_outcome w = inl tt ->
      exists pre v, run_trace w = pre ++ [Called browser_close (Returned v)]
                    /\ closes pre = false)
  /\ (forall e, run_outcome w = inr e ->
        closes (run_trace w) = false
        \/ exists pre, run_trace w = pre ++ [Called browser_close (Raised e)]
                       /\ closes pre = false).
Proof.
  by_shape w.
  all: split; [eexists; reflexivity|].
  all: split; [intros Ho; try discriminate Ho | intros ? Ho; try discriminate Ho].
  all: try (injection Ho as <-).
  all: try (left; rewrite ?closes_app, ?closes_cycles; reflexivity).
  all: lazymatch goal with
       | |- _ \/ _ => right
       | _ => idtac
       end.
  all: match goal with
       | |- context [?s ++ cycles 0 ?es ++ ?t] => exists (s ++ cycles 0 es ++ removelast t)
       end.
  all: lazymatch goal with
       | |- exists _, _ => eexists
       | _ => idtac
       end.
  all: (split; [rewrite <- !app_assoc; reflexivity
               | rewrite ?closes_app, ?closes_cycles; reflexivity]).
Qed.

(** C8. [run] takes nothing but the world it talks to. Every call it makes
    is one of the literal calls of its text, the progress message of the loop
    apart, whose only variable part is the loop counter; and the [k]-th call
    of any browser operation carries the same arguments in any two runs. *)
Theorem no_configuration (w1 w2 : world) :
  (forall c r, In (Called c r) (run_trace w1) ->
               In c literal_calls \/ exists k, k < 30 /\ c = print (waiting_message k))
  /\ (forall op k c1 c2,
        is_builtin op = false ->
        nth_error (calls_to op (run_trace w1)) k = Some c1 ->
        nth_error (calls_to op (run_trace w2)) k = Some c2 ->
        c1 = c2).
Proof.
  split.
  - intros c r. apply calls_are_literals.
  - intros op k c1 c2. apply same_arguments.
Qed.

End Claims.

(** * Further properties of the script *)

Section Further.

Local Open Scope nat_scope.

(** X1. The retry loop holds the only handler of [run]: when any call other
    than the navigation raises (the launch, the context, the page, a mouse
    move, the locator, the visibility check, the screenshot, the close), that
    exception is the outcome and the call is the last event. *)
Theorem library_failure_ends_run (w : world) (n : nat) (c : call) (e : exn) :
  is_goto c = false ->
  nth_error (run_trace w) n = Some (Called c (Raised e)) ->
  run_outcome w = inr e /\ List.length (run_trace w) = S n.
Proof.
  by_shape w; intros Hc Hn; locate Hn n.
  all: try (injection Hn as <- <-); try discriminate Hc.
  all: try match goal with
           | H : Called _ _ = Called _ _ |- _ => injection H as -> ->; discriminate Hc
           end.
  all: split; [reflexivity|].
  all: rewrite ?length_app, ?length_cycles; cbn [List.length app] in *; lia.
Qed.

Lemma library_failure_ends_run_witness :
  is_goto new_page = false
  /\ nth_error (run_trace (breaks_at (fun c => match c with new_page => true | _ => false end)
                                      refused)) 2
     = Some (Called new_page (Raised refused))
  /\ (run_outcome (breaks_at (fun c => match c with new_page => true | _ => false end)
                             refused) = inr refused
      /\ List.length (run_trace (breaks_at (fun c => match c with new_page => true | _ => false end)
                                           refused)) = 3).
Proof.
  split; [reflexivity|]. split; [vm_compute; reflexivity|].
  apply (library_failure_ends_run _ 2 new_page refused);
    [reflexivity | vm_compute; reflexivity].
Defined.

(** X2. A navigation is attempted only on a page that exists: wherever the
    trace holds a navigation call, its first four events are the launch, the
    context and the page, each having returned, and the opening message. *)
Theorem navigation_needs_a_page (w : world) (n : nat) (url : string) (tmo : Z) (r : result) :
  nth_error (run_trace w) n = Some (Called (goto url tmo) r) ->
  4 <= n /\
  exists v1 v2 v3,
    firstn 4 (run_trace w)
    = [ Called (chromium_launch true) (Returned v1);
        Called (new_context 1280 720) (Returned v2);
        Called new_page (Returned v3);
        Called (print "Navigating to home page...") (Returned VNone) ].
Proof.
  by_shape w; intros Hn; locate Hn n.
  all: split; [cbn [List.length] in *; lia|].
  all: do 3 eexists; reflexivity.
Qed.

Lemma navigation_needs_a_page_witness :
  nth_error (run_trace server_down) 7
  = Some (Called (goto home_url 5000) (Raised navigation_timeout))
  /\ (4 <= 7 /\
      exists v1 v2 v3,
        firstn 4 (run_trace server_down)
        = [ Called (chromium_launch true) (Returned v1);
            Called (new_context 1280 720) (Returned v2);
            Called new_page (Returned v3);
            Called (print "Navigating to home page...") (Returned VNone) ]).
Proof.
  split; [vm_compute; reflexivity|].
  apply (navigation_needs_a_page server_down 7 home_url 5000%Z (Raised navigation_timeout)).
  vm_compute. reflexivity.
Defined.

(** X3. The handler of the loop is for Exception only: a navigation that
    raises anything else (a KeyboardInterrupt while it blocks) is not retried.
    That exception is the outcome, the call is the last event (no progress
    message, no sleep), and the generic failure is not raised. *)
Theorem interrupt_is_not_retried (w : world) (n : nat) (url : string) (tmo : Z) (e : exn) :
  nth_error (run_trace w) n = Some (Called (goto url tmo) (Raised e)) ->
  isinstance e Exception = false ->
  run_outcome w = inr e
  /\ List.length (run_trace w) = S n
  /\ ~ In (Raising server_failed) (run_trace w).
Proof.
  intros Hn He.
  destruct (uncaught_attempt_ends_run w n url tmo e Hn He) as (Ho & Hl).
  split; [exact Ho|]. split; [exact Hl|].
  intros Hin. destruct (raising_ends_run w _ Hin) as (_ & Ho' & _).
  rewrite Ho in Ho'. injection Ho' as ->. discriminate He.
Qed.

Lemma interrupt_is_not_retried_witness :
  nth_error (run_trace interrupted) 4
  = Some (Called (goto home_url 5000) (Raised (mk_exn KeyboardInterrupt "")))
  /\ isinstance (mk_exn KeyboardInterrupt "") Exception = false
  /\ (run_outcome interrupted = inr (mk_exn KeyboardInterrupt "")
      /\ List.length (run_trace interrupted) = 5
      /\ ~ In (Raising server_failed) (run_trace interrupted)).
Proof.
  split; [vm_compute; reflexivity|]. split; [reflexivity|].
  apply (interrupt_is_not_retried interrupted 4 home_url 5000%Z (mk_exn KeyboardInterrupt ""));
    [vm_compute; reflexivity | reflexivity].
Defined.

(** X4. The visibility check is made only on a player that was set up: when
    the trace holds the call of is_visible, then seven events earlier the wait
    for the video element had returned, and between the two lie the sleep of
    2 seconds, the message, the two mouse moves to (640, 360) and (650, 370),
    both returned, the sleep of 1 second and the locator. *)
Theorem check_follows_settling (w : world) (n : nat) (r : result) :
  nth_error (run_trace w) n = Some (Called is_visible r) ->
  exists m v v1 v2 v3,
    n = m + 7 /\
    nth_error (run_trace w) m = Some (Called (wait_for_selector "video" 10000) (Returned v)) /\
    nth_error (run_trace w) (m + 1) = Some (Called (sleep 2) (Returned VNone)) /\
    nth_error (run_trace w) (m + 2)
    = Some (Called (print "Hovering to show controls...") (Returned VNone)) /\
    nth_error (run_trace w) (m + 3) = Some (Called (mouse_move 640 360) (Returned v1)) /\
    nth_error (run_trace w) (m + 4) = Some (Called (mouse_move 650 370) (Returned v2)) /\
    nth_error (run_trace w) (m + 5) = Some (Called (sleep 1) (Returned VNone)) /\
    nth_error (run_trace w) (m + 6) = Some (Called (locator controls_selector) (Returned v3)).
Proof.
  by_shape w; intros Hn; locate Hn n.
  all: match goal with
       | |- context [nth_error (?s ++ cycles 0 ?es ++ _)] =>
           exists (List.length s + 3 * List.length es + 6)
       end.
  all: do 4 eexists.
  all: split; [lia|].
  all: split; [tail_at 6|]; split; [tail_at 7|]; split; [tail_at 8|];
    split; [tail_at 9|]; split; [tail_at 10|]; split; [tail_at 11|]; tail_at 12.
Qed.

Lemma check_follows_settling_witness :
  nth_error (run_trace (server_up_after 1 true)) 20
  = Some (Called is_visible (Returned (VBool true)))
  /\ exists m v v1 v2 v3,
      20 = m + 7 /\
      nth_error (run_trace (server_up_after 1 true)) m
      = Some (Called (wait_for_selector "video" 10000) (Returned v)) /\
      nth_error (run_trace (server_up_after 1 true)) (m + 1)
      = Some (Called (sleep 2) (Returned VNone)) /\
      nth_error (run_trace (server_up_after 1 true)) (m + 2)
      = Some (Called (print "Hovering to show controls...") (Returned VNone)) /\
      nth_error (run_trace (server_up_after 1 true)) (m + 3)
      = Some (Called (mouse_move 640 360) (Returned v1)) /\
      nth_error (run_trace (server_up_after 1 true)) (m + 4)
      = Some (Called (mouse_move 650 370) (Returned v2)) /\
      nth_error (run_trace (server_up_after 1 true)) (m + 5)
      = Some (Called (sleep 1) (Returned VNone)) /\
      nth_error (run_trace (server_up_after 1 true)) (m + 6)
      = Some (Called (locator controls_selector) (Returned v3)).
Proof.
  split; [vm_compute; reflexivity|].
  apply (check_follows_settling (server_up_after 1 true) 20 (Returned (VBool true))).
  vm_compute. reflexivity.
Defined.

(** X5. A screenshot is taken only of a page on which the whole interaction
    went through: when the trace holds a screenshot call, it is for
    "verification_controls.png", and before it the navigation, the fill of the
    URL field with the test video, the click on the start button, the wait
    for the video element and the visibility check have all returned. *)
Theorem screenshot_follows_interaction (w : world) (n : nat) (path : string) (r : result) :
  nth_error (run_trace w) n = Some (Called (screenshot path) r) ->
  path = "verification_controls.png" /\
  exists m v v1 v2 v3 visible,
    n = m + 16 /\
    nth_error (run_trace w) m = Some (Called (goto home_url 5000) (Returned v)) /\
    nth_error (run_trace w) (m + 2)
    = Some (Called (fill url_input test_video_url) (Returned v1)) /\
    nth_error (run_trace w) (m + 4) = Some (Called (click start_button) (Returned v2)) /\
    nth_error (run_trace w) (m + 6)
    = Some (Called (wait_for_selector "video" 10000) (Returned v3)) /\
    nth_error (run_trace w) (m + 13) = Some (Called is_visible (Returned visible)).
Proof.
  by_shape w; intros Hn; locate Hn n.
  all: injection Hn as <- <-.
  all: split; [reflexivity|].
  all: match goal with
       | |- context [nth_error (?s ++ cycles 0 ?es ++ _)] =>
           exists (List.length s + 3 * List.length es + 0)
       end.
  all: do 5 eexists.
  all: split; [lia|].
  all: split; [tail_at 0|]; split; [tail_at 2|]; split; [tail_at 4|];
    split; [tail_at 6|]; tail_at 13.
Qed.

Lemma screenshot_follows_interaction_witness :
  nth_error (run_trace (server_up_after 0 false)) 20
  = Some (Called (screenshot "verification_controls.png") (Returned VObject))
  /\ ("verification_controls.png" = "verification_controls.png" /\
      exists m v v1 v2 v3 visible,
        20 = m + 16 /\
        nth_error (run_trace (server_up_after 0 false)) m
        = Some (Called (goto home_url 5000) (Returned v)) /\
        nth_error (run_trace (server_up_after 0 false)) (m + 2)
        = Some (Called (fill url_input test_video_url) (Returned v1)) /\
        nth_error (run_trace (server_up_after 0 false)) (m + 4)
        = Some (Called (click start_button) (Returned v2)) /\
        nth_error (run_trace (server_up_after 0 false)) (m + 6)
        = Some (Called (wait_for_selector "video" 10000) (Returned v3)) /\
        nth_error (run_trace (server_up_after 0 false)) (m + 13)
        = Some (Called is_visible (Returned visible))).
Proof.
  split; [vm_compute; reflexivity|].
  apply (screenshot_follows_interaction (server_up_after 0 false) 20
           "verification_controls.png" (Returned VObject)).
  vm_compute. reflexivity.
Defined.

(** *** The trace holds the answers of the world *)

Lemma observed_library (w : world) (h : trace) (c : call) :
  is_builtin c = false -> observed w h c = w h c.
Proof. intros Hc. unfold observed. rewrite Hc. destruct (w h c); reflexivity. Qed.

Lemma observed_raised (w : world) (h : trace) (c : call) (e : exn) :
  observed w h c = Raised e -> w h c = Raised e.
Proof. unfold observed. destruct (w h c); intros H; [discriminate H|exact H]. Qed.

Lemma answers_nil (w : world) : answers w [].
Proof. intros n c r Hn. destruct n; discriminate Hn. Qed.

Lemma answers_snoc (w : world) (h : trace) (ev : event) :
  answers w h ->
  (forall c r, ev = Called c r -> r = observed w h c) ->
  answers w (h ++ [ev]).
Proof.
  intros Hh Hev n c r Hn.
  destruct (Nat.lt_ge_cases n (List.length h)) as [Hlt|Hge].
  - rewrite nth_error_app1 in Hn by exact Hlt.
    rewrite firstn_app. replace (n - List.length h) with 0 by lia.
    cbn [firstn]. rewrite app_nil_r. exact (Hh n c r Hn).
  - rewrite nth_error_app2 in Hn by exact Hge.
    destruct (n - List.length h) as [|k] eqn:Hk;
      [|destruct k; discriminate Hn].
    injection Hn as ->.
    replace n with (List.length h + 0) by lia.
    rewrite firstn_app_2. cbn [firstn]. rewrite app_nil_r. exact (Hev c r eq_refl).
Qed.

Lemma keeps_ret {A : Type} (a : A) : keeps (ret a).
Proof. intros w h Hh. exact Hh. Qed.

Lemma keeps_bind {A B : Type} (m : M A) (f : A -> M B) :
  keeps m -> (forall a, keeps (f a)) -> keeps (bind m f).
Proof.
  intros Hm Hf w h Hh. specialize (Hm w h Hh). unfold bind.
  destruct (m w h) as [h' [a|e]]; cbn [fst] in *; [apply Hf; exact Hm|exact Hm].
Qed.

Lemma keeps_invoke (c : call) : is_builtin c = false -> keeps (invoke c).
Proof.
  intros Hc w h Hh. unfold invoke. cbn [fst]. apply answers_snoc; [exact Hh|].
  intros c' r' Heq. injection Heq as <- <-. symmetry. apply observed_library. exact Hc.
Qed.

Lemma keeps_builtin (c : call) : is_builtin c = true -> keeps (builtin c).
Proof.
  intros Hc w h Hh. unfold builtin.
  destruct (w h c) as [v|e] eqn:Hw; cbn [fst]; (apply answers_snoc; [exact Hh|]);
    intros c' r' Heq; injection Heq as <- <-; unfold observed; rewrite Hw, ?Hc; reflexivity.
Qed.

Lemma keeps_raise {A : Type} (e : exn) : keeps (@raise A e).
Proof.
  intros w h Hh. unfold raise. cbn [fst]. apply answers_snoc; [exact Hh|].
  intros c r Heq. discriminate Heq.
Qed.

Lemma keeps_try_except {A : Type} (m : M A) (cls : exn_class) (handler : exn -> M A) :
  keeps m -> (forall e, keeps (handler e)) -> keeps (try_except m cls handler).
Proof.
  intros Hm Hh w h Ha. specialize (Hm w h Ha). unfold try_except.
  destruct (m w h) as [h' [a|e]]; cbn [fst] in *; [exact Hm|].
  destruct (isinstance e cls); [apply Hh; exact Hm|exact Hm].
Qed.

Lemma keeps_for_else {A : Type} (xs : list A) (body : A -> M loop_exit) (orelse : M unit) :
  (forall x, keeps (body x)) -> keeps orelse -> keeps (for_else xs body orelse).
Proof.
  intros Hb Ho. induction xs as [|x xs IH]; [exact Ho|].
  cbn [for_else]. apply keeps_bind; [apply Hb|].
  intros [|]; [apply keeps_ret|exact IH].
Qed.

Ltac keeps_steps :=
  repeat first
    [ apply keeps_ret
    | apply keeps_invoke; reflexivity
    | apply keeps_builtin; reflexivity
    | apply keeps_raise
    | apply keeps_bind; [|intros ?]
    | apply keeps_try_except; [|intros ?]
    | apply keeps_for_else; [intros ?|]
    | match goal with |- keeps (if ?b then _ else _) => destruct b end ].

Lemma keeps_run : keeps run.
Proof. unfold run, wait_for_server, attempt. keeps_steps. Qed.

Lemma run_answers (w : world) : answers w (run_trace w).
Proof. apply keeps_run. apply answers_nil. Qed.

Lemma raised_is_answered (w : world) (t : trace) (c : call) (e : exn) :
  answers w t -> In (Called c (Raised e)) t -> exists h, w h c = Raised e.
Proof.
  intros Ha Hin. apply In_nth_error in Hin. destruct Hin as (n & Hn).
  exists (firstn n t). apply observed_raised. symmetry. exact (Ha n c _ Hn).
Qed.

(** The answers behind the navigation events of a run. *)
Lemma loop_answers (w : world) (s : trace) (es : list exn) (t : trace) :
  answers w (s ++ cycles 0 es ++ t) ->
  goto_results s = [] ->
  (forall j e, nth_error es j = Some e ->
     exists h, attempts h = j /\ w h (goto home_url 5000) = Raised e)
  /\ (forall r t', t = Called (goto home_url 5000) r :: t' ->
        exists h, attempts h = List.length es /\ w h (goto home_url 5000) = r).
Proof.
  intros Ha Hs. split.
  - intros j e Hj.
    assert (Hlt : j < List.length es) by (apply nth_error_Some; congruence).
    destruct (shape_in_cycle s 0 es t j e Hj) as (Hg & _ & _).
    exists (firstn (List.length s + 3 * j) (s ++ cycles 0 es ++ t)).
    split; [apply attempts_before_cycle; [exact Hs|lia]|].
    rewrite <- (observed_library w _ (goto home_url 5000) eq_refl).
    symmetry. exact (Ha _ _ _ Hg).
  - intros r t' ->.
    exists (firstn (List.length s + 3 * List.length es)
                   (s ++ cycles 0 es ++ Called (goto home_url 5000) r :: t')).
    split; [apply attempts_before_cycle; [exact Hs|lia]|].
    rewrite <- (observed_library w _ (goto home_url 5000) eq_refl).
    symmetry. apply Ha.
    rewrite (shape_in_tail s 0 es _ _ 0) by lia. reflexivity.
Qed.

Lemma raised_in_app (p : call -> bool) (t u : trace) :
  raised_in p (t ++ u) = raised_in p t || raised_in p u.
Proof. apply existsb_app. Qed.

(** No call raises in a run that the world lets return always. *)
Lemma no_raise_in (w : world) (t : trace) (p : call -> bool) :
  answers w t ->
  (forall h c, p c = true -> exists v, w h c = Returned v) ->
  raised_in p t = true -> False.
Proof.
  intros Ha Hret Hin. unfold raised_in in Hin. apply existsb_exists in Hin.
  destruct Hin as ([c [v|e]|e] & Hin & Hp); try discriminate Hp.
  destruct (raised_is_answered w t c e Ha Hin) as (h & Hh).
  destruct (Hret h c Hp) as (v & Hv). congruence.
Qed.

Lemma no_raise_elsewhere (w : world) (t : trace) :
  answers w t ->
  (forall h c, is_goto c = false -> exists v, w h c = Returned v) ->
  raised_in (fun c => negb (is_goto c)) t = true -> False.
Proof.
  intros Ha Hret. apply (no_raise_in w t _ Ha).
  intros h c Hc. apply Hret. destruct (is_goto c); [discriminate Hc|reflexivity].
Qed.

Ltac raised_here :=
  rewrite ?raised_in_app; unfold raised_in;
  cbn [existsb app negb is_goto sets_up_or_prints orb];
  rewrite ?orb_true_r; reflexivity.

(** Finding in a run the call that raised, when the world lets no such call
    raise. *)
Ltac find_raise :=
  exfalso;
  match goal with
  | Ha : answers ?w ?t,
    Hret : forall h c, is_goto c = false -> exists v, ?w h c = Returned v |- _ =>
      apply (no_raise_elsewhere w t Ha Hret); raised_here
  | Ha : answers ?w ?t,
    Hret : forall h c, ?p c = true -> exists v, ?w h c = Returned v |- _ =>
      apply (no_raise_in w t p Ha Hret); raised_here
  end.

Lemma printed_app (t u : trace) : printed (t ++ u) = printed t ++ printed u.
Proof.
  induction t as [|[c r|e] t IH]; cbn [app printed]; [reflexivity| |exact IH].
  destruct c; try exact IH.
  destruct r; [cbn [app]; rewrite IH; reflexivity|exact IH].
Qed.

Lemma printed_cycles (es : list exn) :
  forall i, printed (cycles i es) = map waiting_message (seq i (List.length es)).
Proof.
  induction es as [|e es IH]; intros i; [reflexivity|].
  cbn [cycles failed_cycle app printed List.length seq map]. rewrite IH. reflexivity.
Qed.

Lemma filter_failed_raised (es : list exn) :
  forallb (fun x => isinstance x Exception) es = true ->
  filter failed (map Raised es) = map Raised es.
Proof.
  induction es as [|e es IH]; intros Hes; [reflexivity|].
  cbn [forallb] in Hes. apply andb_prop in Hes. destruct Hes as [He Hes].
  cbn [map filter failed]. rewrite He, IH by exact Hes. reflexivity.
Qed.

(** X6. What a run prints when the setup and the prints go through (launch,
    new_context, new_page and every print return): first "Navigating to home
    page...", then one progress message per failed attempt, numbered from 0
    without a gap, then an initial part of the six messages that follow the
    loop, the fifth being the one or the other diagnostic. *)
Theorem console_output (w : world) :
  (forall h c, sets_up_or_prints c = true -> exists v, w h c = Returned v) ->
  exists shown j,
    printed (run_trace w)
    = "Navigating to home page..."
        :: map waiting_message
               (seq 0 (List.length (filter failed (goto_results (run_trace w)))))
        ++ firstn j (closing_messages shown).
Proof.
  generalize (run_answers w). by_shape w; intros Ha Hret.
  all: try find_raise.
  all: rewrite !goto_results_app, goto_results_cycles, !printed_app, printed_cycles.
  all: cbn [goto_results printed app].
  all: rewrite filter_app, filter_failed_raised, length_app, length_map by assumption.
  all: cbn [filter failed List.length].
  all: repeat match goal with
              | H : isinstance ?e Exception = _ |- context [isinstance ?e Exception] =>
                  rewrite H
              end.
  all: cbn [List.length]; rewrite ?Nat.add_0_r.
  all: try (exists true, 0; rewrite Nat.add_1_r, seq_S, map_app, <- app_assoc;
            reflexivity).
  all: first [ match goal with |- context [diagnostic ?v] => exists (truthy v) end
             | exists true ].
  all: match goal with
       | |- exists _, _ :: _ ++ ?l = _ => exists (List.length l)
       end.
  all: reflexivity.
Qed.

Lemma console_output_witness :
  (forall h c, sets_up_or_prints c = true ->
               exists v, server_up_after 2 true h c = Returned v)
  /\ exists shown j,
      printed (run_trace (server_up_after 2 true))
      = "Navigating to home page..."
          :: map waiting_message
                 (seq 0 (List.length
                           (filter failed (goto_results (run_trace (server_up_after 2 true))))))
          ++ firstn j (closing_messages shown).
Proof.
  assert (H : forall h c, sets_up_or_prints c = true ->
                          exists v, server_up_after 2 true h c = Returned v)
    by (intros h c Hc; destruct c; try discriminate Hc; eexists; reflexivity).
  split; [exact H|].
  exact (console_output (server_up_after 2 true) H).
Defined.

(** X7. No step of the script is repeated but the navigation: in any run the
    browser is launched, the form filled, the button clicked, the screenshot
    taken and the browser closed at most once each, and the pointer is moved
    at most twice. *)
Theorem each_step_at_most_once (w : world) (op : call) :
  is_builtin op = false ->
  is_goto op = false ->
  List.length (calls_to op (run_trace w))
  <= match op with
     | mouse_move _ _ => 2
     | sync_playwright_enter | sync_playwright_exit => 0
     | _ => 1
     end.
Proof.
  intros Hb Hg. destruct (calls_to_reference w op Hb) as (n & ->).
  rewrite length_firstn.
  destruct op; try discriminate Hb; try discriminate Hg; cbn; lia.
Qed.

Lemma each_step_at_most_once_witness :
  is_builtin (click start_button) = false
  /\ is_goto (click start_button) = false
  /\ List.length (calls_to (click start_button) (run_trace (server_up_after 3 true))) <= 1.
Proof.
  split; [reflexivity|]. split; [reflexivity|].
  apply (each_step_at_most_once (server_up_after 3 true) (click start_button)); reflexivity.
Defined.

Lemma server_never_answers (w : world) :
  (forall h c, is_goto c = false -> exists v, w h c = Returned v) ->
  (forall h, exists e, w h (goto home_url 5000) = Raised e /\ isinstance e Exception = true) ->
  run_outcome w = inr server_failed
  /\ attempts (run_trace w) = 30
  /\ two_second_sleeps (run_trace w) = 30
  /\ List.length (run_trace w) = 95
  /\ closes (run_trace w) = false.
Proof.
  generalize (run_answers w). by_shape w; intros Ha Hret Hfail.
  all: try find_raise.
  all: match goal with
       | Ha : answers ?w0 (?s ++ cycles 0 ?es ++ ?t) |- _ =>
           destruct (loop_answers w0 s es t Ha eq_refl) as (_ & Hend)
       end.
  all: try (exfalso;
            destruct (Hend _ _ eq_refl) as (h & _ & Hh);
            destruct (Hfail h) as (e' & He' & Hc'); congruence).
  split; [reflexivity|].
  unfold attempts.
  rewrite !goto_results_app, goto_results_cycles, !two_second_sleeps_app,
    two_second_sleeps_cycles, !length_app, length_cycles, length_map,
    !closes_app, closes_cycles.
  cbn [goto_results two_second_sleeps List.length app closes existsb orb].
  repeat split; lia.
Qed.

(** X8. When the server never answers (every navigation raises some
    Exception, every other call returns), the run makes exactly thirty
    attempts and sleeps thirty times 2 seconds, ends in "Server failed to
    start" after 95 events, and leaves the browser open. *)
Theorem run_when_server_never_answers (w : world) :
  (forall h c, is_goto c = false -> exists v, w h c = Returned v) ->
  (forall h, exists e, w h (goto home_url 5000) = Raised e /\ isinstance e Exception = true) ->
  run_outcome w = inr server_failed
  /\ attempts (run_trace w) = 30
  /\ two_second_sleeps (run_trace w) = 30
  /\ List.length (run_trace w) = 95
  /\ closes (run_trace w) = false.
Proof. apply server_never_answers. Qed.

Lemma run_when_server_never_answers_witness :
  (forall h c, is_goto c = false -> exists v, server_down h c = Returned v)
  /\ (forall h, exists e, server_down h (goto home_url 5000) = Raised e
                          /\ isinstance e Exception = true)
  /\ (run_outcome server_down = inr server_failed
      /\ attempts (run_trace server_down) = 30
      /\ two_second_sleeps (run_trace server_down) = 30
      /\ List.length (run_trace server_down) = 95
      /\ closes (run_trace server_down) = false).
Proof.
  assert (H1 : forall h c, is_goto c = false -> exists v, server_down h c = Returned v)
    by (intros h c Hc; destruct c; try discriminate Hc; exists VObject; reflexivity).
  assert (H2 : forall h, exists e, server_down h (goto home_url 5000) = Raised e
                                   /\ isinstance e Exception = true)
    by (intros h; exists navigation_timeout; split; reflexivity).
  split; [exact H1|]. split; [exact H2|].
  exact (run_when_server_never_answers server_down H1 H2).
Defined.

(** X9. When the server refuses the first [k] navigations and answers the
    next one, with [k] below thirty (the thirtieth attempt still counts), and
    no other call raises, the run ends normally after exactly [k + 1]
    attempts and [22 + 3 k] events, and writes the screenshot. *)
Theorem run_when_server_answers_late (w : world) (k : nat) :
  k < 30 ->
  (forall h c, is_goto c = false -> exists v, w h c = Returned v) ->
  (forall h, attempts h < k ->
             exists e, w h (goto home_url 5000) = Raised e /\ isinstance e Exception = true) ->
  (forall h, attempts h = k -> exists v, w h (goto home_url 5000) = Returned v) ->
  run_outcome w = inl tt
  /\ attempts (run_trace w) = k + 1
  /\ List.length (run_trace w) = 22 + 3 * k
  /\ artifacts (run_trace w) = ["verification_controls.png"].
Proof.
  generalize (run_answers w). by_shape w; intros Ha Hk Hret Hfail Hok.
  all: try find_raise.
  all: match goal with
       | Ha : answers ?w0 (?s ++ cycles 0 ?es ++ ?t), Hk : ?k0 < 30 |- _ =>
           destruct (loop_answers w0 s es t Ha eq_refl) as (Hcyc & Hend);
           assert (Hes : List.length es = k0);
           [ destruct (Nat.lt_trichotomy (List.length es) k) as [Hlt|[Heq|Hgt]];
             [ exfalso | exact Heq | exfalso ] | ]
       end.
  all: try (destruct (nth_error es k) as [e'|] eqn:Hnth;
            [ destruct (Hcyc k e' Hnth) as (h & Hh & Hw);
              destruct (Hok h Hh) as (v' & Hv'); congruence
            | apply nth_error_None in Hnth; lia ]).
  all: try lia.
  all: try (destruct (Hend _ _ eq_refl) as (h & Hh & Hw);
            destruct (Hfail h ltac:(lia)) as (e' & He' & Hc'); congruence).
  all: try (exfalso; destruct (Hend _ _ eq_refl) as (h & Hh & Hw);
            destruct (Hok h ltac:(lia)) as (v' & Hv'); congruence).
  split; [reflexivity|].
  unfold attempts.
  rewrite !goto_results_app, goto_results_cycles, !length_app, length_cycles, length_map,
    !artifacts_app, artifacts_cycles.
  cbn [goto_results List.length app artifacts].
  repeat split; lia.
Qed.

Lemma server_up_after_answers (k : nat) (shown : bool) :
  (forall h c, is_goto c = false -> exists v, server_up_after k shown h c = Returned v)
  /\ (forall h, (attempts h < k)%nat ->
                exists e, server_up_after k shown h (goto home_url 5000) = Raised e
                          /\ isinstance e Exception = true)
  /\ (forall h, attempts h = k ->
                exists v, server_up_after k shown h (goto home_url 5000) = Returned v).
Proof.
  split; [|split].
  - intros h c Hc. destruct c; try discriminate Hc; eexists; reflexivity.
  - intros h Hlt. exists refused. cbn [server_up_after].
    apply Nat.ltb_lt in Hlt. rewrite Hlt. split; reflexivity.
  - intros h Heq. exists VNone. cbn [server_up_after].
    replace (attempts h <? k) with false by (symmetry; apply Nat.ltb_ge; lia). reflexivity.
Qed.

Lemma run_when_server_answers_late_witness :
  29 < 30
  /\ (forall h c, is_goto c = false -> exists v, server_up_after 29 true h c = Returned v)
  /\ (forall h, attempts h < 29 ->
                exists e, server_up_after 29 true h (goto home_url 5000) = Raised e
                          /\ isinstance e Exception = true)
  /\ (forall h, attempts h = 29 ->
                exists v, server_up_after 29 true h (goto home_url 5000) = Returned v)
  /\ (run_outcome (server_up_after 29 true) = inl tt
      /\ attempts (run_trace (server_up_after 29 true)) = 29 + 1
      /\ List.length (run_trace (server_up_after 29 true)) = 22 + 3 * 29
      /\ artifacts (run_trace (server_up_after 29 true)) = ["verification_controls.png"]).
Proof.
  destruct (server_up_after_answers 29 true) as (H1 & H2 & H3).
  split; [lia|]. split; [exact H1|]. split; [exact H2|]. split; [exact H3|].
  exact (run_when_server_answers_late (server_up_after 29 true) 29 ltac:(lia) H1 H2 H3).
Defined.

(** X12. Every run is short: at most 30 navigation attempts and 109 events
    in all; every call carries one of the fixed durations of the text (5 s
    per navigation, 10 s for the video element, sleeps of 2 s and 1 s, none
    elsewhere); and the durations the script asks for add up to at most
    30 * (5 + 2) + 10 + 2 + 1 = 223 s. *)
Theorem requested_waits_are_bounded (w : world) :
  attempts (run_trace w) <= 30
  /\ List.length (run_trace w) <= 109
  /\ (forall c r, In (Called c r) (run_trace w) ->
                  In (requested_ms c) [0; 1000; 2000; 5000; 10000]%Z)
  /\ (requested (run_trace w) <= 223000)%Z.
Proof.
  split; [apply attempts_le_30|].
  by_shape w.
  all: split; [rewrite ?length_app, ?length_cycles; cbn [List.length app]; lia|].
  all: split; [intros c r Hin; split_in Hin;
               try (injection Hin as <- <-; cbn; tauto);
               try discriminate Hin;
               exact (in_cycles_requested _ _ _ _ Hin)|].
  all: rewrite ?requested_app, ?requested_cycles; cbn [requested requested_ms app]; lia.
Qed.

(** *** The script around [run] *)

Lemma framed_ret {A : Type} (a : A) : framed (ret a).
Proof. intros w h0 h. reflexivity. Qed.

Lemma framed_bind {A B : Type} (m : M A) (f : A -> M B) :
  framed m -> (forall a, framed (f a)) -> framed (bind m f).
Proof.
  intros Hm Hf w h0 h. unfold bind. rewrite (Hm w h0 h).
  destruct (m (shift w h0) h) as [h' [a|e]]; cbn [fst snd]; [apply Hf|reflexivity].
Qed.

Lemma framed_invoke (c : call) : framed (invoke c).
Proof.
  intros w h0 h. unfold invoke, shift. cbn [fst snd]. rewrite app_assoc. reflexivity.
Qed.

Lemma framed_builtin (c : call) : framed (builtin c).
Proof.
  intros w h0 h. unfold builtin, shift.
  destruct (w (h0 ++ h) c); cbn [fst snd]; rewrite app_assoc; reflexivity.
Qed.

Lemma framed_raise {A : Type} (e : exn) : framed (@raise A e).
Proof. intros w h0 h. unfold raise. cbn [fst snd]. rewrite app_assoc. reflexivity. Qed.

Lemma framed_try_except {A : Type} (m : M A) (cls : exn_class) (handler : exn -> M A) :
  framed m -> (forall e, framed (handler e)) -> framed (try_except m cls handler).
Proof.
  intros Hm Hh w h0 h. unfold try_except. rewrite (Hm w h0 h).
  destruct (m (shift w h0) h) as [h' [a|e]]; cbn [fst snd]; [reflexivity|].
  destruct (isinstance e cls); [apply Hh|reflexivity].
Qed.

Lemma framed_for_else {A : Type} (xs : list A) (body : A -> M loop_exit) (orelse : M unit) :
  (forall x, framed (body x)) -> framed orelse -> framed (for_else xs body orelse).
Proof.
  intros Hb Ho. induction xs as [|x xs IH]; [exact Ho|].
  cbn [for_else]. apply framed_bind; [apply Hb|].
  intros [|]; [apply framed_ret|exact IH].
Qed.

Ltac framed_steps :=
  repeat first
    [ apply framed_ret
    | apply framed_invoke
    | apply framed_builtin
    | apply framed_raise
    | apply framed_bind; [|intros ?]
    | apply framed_try_except; [|intros ?]
    | apply framed_for_else; [intros ?|]
    | match goal with |- framed (if ?b then _ else _) => destruct b end ].

Lemma framed_run : framed run.
Proof. unfold run, wait_for_server, attempt. framed_steps. Qed.

(** A run that starts after the events [h0] is a run from the start in the
    world shifted by [h0]. *)
Lemma run_after (w : world) (h0 : trace) :
  run w h0 = (h0 ++ run_trace (shift w h0), run_outcome (shift w h0)).
Proof.
  pose proof (framed_run w h0 []) as H. rewrite app_nil_r in H. exact H.
Qed.

(** X10. The whole script. When entering sync_playwright() raises, that is
    all that happens. Otherwise the events are: the entry, a run of [run] in
    the world as it is after the entry, and the exit, which is made on every
    path. The exception of the exit wins; a run that raised makes the script
    raise the same, unless the exit answers a true value. *)
Theorem script_wraps_run (w : world) :
  main w []
  = match w [] sync_playwright_enter with
    | Raised e => ([Called sync_playwright_enter (Raised e)], inr e)
    | Returned v =>
        let entered := [Called sync_playwright_enter (Returned v)] in
        let inside := run_trace (shift w entered) in
        let r := w (entered ++ inside) sync_playwright_exit in
        (entered ++ inside ++ [Called sync_playwright_exit r],
         match r with
         | Raised e' => inr e'
         | Returned x =>
             match run_outcome (shift w entered) with
             | inl _ => inl tt
             | inr e => if truthy x then inl tt else inr e
             end
         end)
    end.
Proof.
  unfold main, with_. rewrite bind_unfold, invoke_unfold. cbn [app].
  destruct (w [] sync_playwright_enter) as [v|e]; [|reflexivity].
  rewrite run_after. cbv zeta. cbn [app].
  destruct (run_outcome (shift w [Called sync_playwright_enter (Returned v)])) as [[]|e].
  - rewrite bind_unfold, invoke_unfold.
    destruct (w _ sync_playwright_exit) as [x|e']; reflexivity.
  - rewrite invoke_unfold.
    destruct (w _ sync_playwright_exit) as [x|e']; [destruct (truthy x)|]; reflexivity.
Qed.

(** X11. The script against a server that never answers, with an exit that
    answers no true value (Playwright's answers None): the script ends in
    "Server failed to start", its last event is the exit of the with block,
    and browser.close() was never called. *)
Theorem script_when_server_never_answers (w : world) :
  (forall h c, is_goto c = false -> exists v, w h c = Returned v) ->
  (forall h, exists e, w h (goto home_url 5000) = Raised e /\ isinstance e Exception = true) ->
  (forall h v, w h sync_playwright_exit = Returned v -> truthy v = false) ->
  snd (main w []) = inr server_failed
  /\ (exists pre v, fst (main w []) = pre ++ [Called sync_playwright_exit (Returned v)])
  /\ closes (fst (main w [])) = false
  /\ List.length (fst (main w [])) = 97.
Proof.
  intros Hret Hfail Hexit. rewrite script_wraps_run.
  destruct (Hret [] sync_playwright_enter eq_refl) as (v & ->). cbv zeta.
  assert (Hrun := server_never_answers (shift w [Called sync_playwright_enter (Returned v)])).
  destruct Hrun as (Ho & _ & _ & Hlen & Hcl).
  { intros h c Hc. apply Hret. exact Hc. }
  { intros h. apply Hfail. }
  destruct (Hret ([Called sync_playwright_enter (Returned v)]
                    ++ run_trace (shift w [Called sync_playwright_enter (Returned v)]))
                 sync_playwright_exit eq_refl) as (x & Hx).
  rewrite Hx, Ho. cbn [fst snd]. rewrite (Hexit _ _ Hx).
  split; [reflexivity|].
  split; [eexists _, x; rewrite app_assoc; reflexivity|].
  split.
  - rewrite !closes_app, Hcl. reflexivity.
  - rewrite !length_app, Hlen. reflexivity.
Qed.

Lemma script_when_server_never_answers_witness :
  (forall h c, is_goto c = false -> exists v, server_down_script h c = Returned v)
  /\ (forall h, exists e, server_down_script h (goto home_url 5000) = Raised e
                          /\ isinstance e Exception = true)
  /\ (forall h v, server_down_script h sync_playwright_exit = Returned v -> truthy v = false)
  /\ (snd (main server_down_script []) = inr server_failed
      /\ (exists pre v, fst (main server_down_script [])
                         = pre ++ [Called sync_playwright_exit (Returned v)])
      /\ closes (fst (main server_down_script [])) = false
      /\ List.length (fst (main server_down_script [])) = 97).
Proof.
  assert (H1 : forall h c, is_goto c = false ->
                           exists v, server_down_script h c = Returned v)
    by (intros h c Hc; destruct c; try discriminate Hc; eexists; reflexivity).
  assert (H2 : forall h, exists e, server_down_script h (goto home_url 5000) = Raised e
                                   /\ isinstance e Exception = true)
    by (intros h; exists refused; split; reflexivity).
  assert (H3 : forall h v, server_down_script h sync_playwright_exit = Returned v ->
                           truthy v = false)
    by (intros h v Hv; injection Hv as <-; reflexivity).
  split; [exact H1|]. split; [exact H2|]. split; [exact H3|].
  exact (script_when_server_never_answers server_down_script H1 H2 H3).
Defined.

End Further.

(** ** The enclosing with block *)

(** Once sync_playwright() has been entered, its exit is the last call of the
    script on every path, whether [run] returned or raised. *)
Lemma main_always_exits (w : world) (v : value) :
  nth_error (fst (main w [])) 0 = Some (Called sync_playwright_enter (Returned v)) ->
  exists pre r, fst (main w []) = pre ++ [Called sync_playwright_exit r].
Proof.
  unfold main, with_. rewrite bind_unfold, invoke_unfold.
  destruct (w [] sync_playwright_enter) as [v0|e]; [|intros H; discriminate H].
  intros _. cbn [app].
  destruct (run w [Called sync_playwright_enter (Returned v0)]) as [h [[]|e]].
  - rewrite bind_unfold, invoke_unfold.
    destruct (w h sync_playwright_exit); eexists _, _; reflexivity.
  - rewrite invoke_unfold.
    destruct (w h sync_playwright_exit) as [v1|e1]; [destruct (truthy v1)|];
      eexists _, _; reflexivity.
Qed.
